(** * sopel-discord: a shallow embedding of the relay module

    The module [sopel_modules/sopel_discord/sopel_discord.py] relays chat
    between Discord channels and IRC channels.  This file embeds its
    handlers ([on_message], [irc_message]), its configuration attribute
    ([DictAttribute.parse]), and its start-up code ([setup],
    [_setup_webhooks]) and proves properties of them.

    Modelling conventions.
    - A Python [str] is a [string] of ASCII characters; the classes
      [\s], [\w], [\d] and [str.strip] are the ASCII restrictions of the
      Unicode ones.
    - A Python [dict] is an association list in insertion order.
    - The value returned by [r.json()] is a [json] tree; numbers are
      integers.
    - [trigger.sender] is a sopel [Identifier]: a dict lookup with it goes
      by its lower-cased text (ASCII lower case and the IRC pairs
      [[]\~] to [{}|^]), against the keys as they were stored.
    - The handlers run in a small state-and-exception monad over [world];
      a raised exception keeps the mutations made before it.
    - [logger.debug]/[logger.info] output is not recorded; [print] output
      is. *)

From Stdlib Require Import String Ascii List ZArith Bool Lia DecimalString.
Import ListNotations.
Local Open Scope string_scope.
Local Open Scope Z_scope.

(** ** Python strings *)

Module PyStr.

Definition ord (c : ascii) : N := N_of_ascii c.

(** [str.isspace] on ASCII: TAB..CR, FS..US and the space. *)
Definition is_space (c : ascii) : bool :=
  let n := ord c in
  ((9 <=? n) && (n <=? 13) || (28 <=? n) && (n <=? 32))%N.

Definition is_digit (c : ascii) : bool :=
  let n := ord c in ((48 <=? n) && (n <=? 57))%N.

Definition is_alpha (c : ascii) : bool :=
  let n := ord c in
  ((65 <=? n) && (n <=? 90) || (97 <=? n) && (n <=? 122))%N.

(** The regex class [\w]. *)
Definition is_word (c : ascii) : bool :=
  is_alpha c || is_digit c || Ascii.eqb c "_".

Definition digit_val (c : ascii) : Z := Z.of_N (ord c) - 48.

Definition is_empty (s : string) : bool :=
  match s with EmptyString => true | _ => false end.

Fixpoint lstrip (s : string) : string :=
  match s with
  | String c t => if is_space c then lstrip t else s
  | EmptyString => EmptyString
  end.

Fixpoint rstrip (s : string) : string :=
  match s with
  | String c t =>
      let t' := rstrip t in
      if is_empty t' && is_space c then EmptyString else String c t'
  | EmptyString => EmptyString
  end.

(** [s.strip()] *)
Definition strip (s : string) : string := rstrip (lstrip s).

(** [s.split(sep)] for a one-character separator. *)
Fixpoint split (sep : ascii) (s : string) : list string :=
  match s with
  | EmptyString => [EmptyString]
  | String c t =>
      if Ascii.eqb c sep then EmptyString :: split sep t
      else match split sep t with
           | h :: r => String c h :: r
           | [] => [String c EmptyString]
           end
  end.

(** [sep.join(parts)] *)
Fixpoint join (sep : string) (parts : list string) : string :=
  match parts with
  | [] => EmptyString
  | [p] => p
  | p :: rest => p ++ sep ++ join sep rest
  end.

(** [s.replace(a, b)] for one-character [a] and [b]. *)
Fixpoint replace (a b : ascii) (s : string) : string :=
  match s with
  | EmptyString => EmptyString
  | String c t => String (if Ascii.eqb c a then b else c) (replace a b t)
  end.

Fixpoint drop_last (s : string) : string :=
  match s with
  | EmptyString => EmptyString
  | String c EmptyString => EmptyString
  | String c t => String c (drop_last t)
  end.

(** [s[1:-1]] *)
Definition slice_1_m1 (s : string) : string :=
  match s with
  | EmptyString => EmptyString
  | String _ t => drop_last t
  end.

Fixpoint contains (c : ascii) (s : string) : bool :=
  match s with
  | EmptyString => false
  | String d t => Ascii.eqb c d || contains c t
  end.

(** [c.lower()] on ASCII: [A]..[Z] become [a]..[z]. *)
Definition lower_char (c : ascii) : ascii :=
  let n := ord c in
  if ((65 <=? n) && (n <=? 90))%N then ascii_of_N (n + 32) else c.

(** [s.lower()] *)
Fixpoint lower (s : string) : string :=
  match s with
  | EmptyString => EmptyString
  | String c t => String (lower_char c) (lower t)
  end.

(** [str(n)] for an [int]. *)
Definition of_Z (n : Z) : string := NilZero.string_of_int (Z.to_int n).

(** The digits of an [int] literal after its first digit: single
    underscores may separate digits. *)
Fixpoint int_digits (acc : Z) (after_underscore : bool) (s : string) : option Z :=
  match s with
  | EmptyString => if after_underscore then None else Some acc
  | String c t =>
      if is_digit c then int_digits (10 * acc + digit_val c) false t
      else if Ascii.eqb c "_" then
             if after_underscore then None else int_digits acc true t
           else None
  end.

Definition int_unsigned (s : string) : option Z :=
  match s with
  | String c t => if is_digit c then int_digits (digit_val c) false t else None
  | EmptyString => None
  end.

(** [int(s)] in base ten; [None] stands for [ValueError]. *)
Definition to_int (s : string) : option Z :=
  match strip s with
  | String c t =>
      if Ascii.eqb c "+" then int_unsigned t
      else if Ascii.eqb c "-" then option_map Z.opp (int_unsigned t)
      else int_unsigned (String c t)
  | EmptyString => None
  end.

Definition hex_digit (n : N) : ascii :=
  ascii_of_N (if (n <? 10)%N then 48 + n else 87 + n).

(** One character of [repr(s)] with quote character [q]. *)
Definition repr_char (q c : ascii) : string :=
  let n := ord c in
  if Ascii.eqb c "\" then "\\"
  else if Ascii.eqb c q then String "\" (String q EmptyString)
  else if (n =? 9)%N then "\t"
  else if (n =? 10)%N then "\n"
  else if (n =? 13)%N then "\r"
  else if ((n <? 32) || (n =? 127))%N then
         String "\" (String "x" (String (hex_digit (n / 16))
                                   (String (hex_digit (n mod 16)) EmptyString)))
  else String c EmptyString.

Fixpoint repr_body (q : ascii) (s : string) : string :=
  match s with
  | EmptyString => EmptyString
  | String c t => repr_char q c ++ repr_body q t
  end.

(** [repr(s)] for a [str]. *)
Definition repr (s : string) : string :=
  let dq : ascii := ascii_of_N 34 in
  let q : ascii :=
    if contains "'" s && negb (contains dq s) then dq else "'"%char in
  String q (repr_body q s ++ String q EmptyString).

End PyStr.

(** ** Python dictionaries *)

Class Eqb (K : Type) := {
  eqb : K -> K -> bool;
  eqb_spec : forall x y, eqb x y = true <-> x = y
}.

#[export] Instance Eqb_string : Eqb string :=
  {| eqb := String.eqb; eqb_spec := String.eqb_eq |}.

#[export] Instance Eqb_Z : Eqb Z :=
  {| eqb := Z.eqb; eqb_spec := Z.eqb_eq |}.

Module Dict.

(** A [dict] holds its items in insertion order. *)
Definition t (K V : Type) : Type := list (K * V).

Definition empty {K V : Type} : t K V := [].

(** [d.get(k)] *)
Fixpoint get {K V : Type} `{Eqb K} (k : K) (d : t K V) : option V :=
  match d with
  | [] => None
  | (k', v) :: r => if eqb k k' then Some v else get k r
  end.

(** [k in d] *)
Definition mem {K V : Type} `{Eqb K} (k : K) (d : t K V) : bool :=
  match get k d with Some _ => true | None => false end.

(** [d[k] = v]: an existing key keeps its position, a new one goes last. *)
Fixpoint set {K V : Type} `{Eqb K} (k : K) (v : V) (d : t K V) : t K V :=
  match d with
  | [] => [(k, v)]
  | (k', v') :: r => if eqb k k' then (k', v) :: r else (k', v') :: set k v r
  end.

(** [d.items()] *)
Definition items {K V : Type} (d : t K V) : list (K * V) := d.

(** [{k: v for (k, v) in pairs}] *)
Definition of_pairs {K V : Type} `{Eqb K} (pairs : list (K * V)) : t K V :=
  fold_left (fun d kv => set (fst kv) (snd kv) d) pairs empty.

Definition keys {K V : Type} (d : t K V) : list K := map fst d.
Definition values {K V : Type} (d : t K V) : list V := map snd d.

End Dict.

(** ** [sopel.tools.Identifier] *)

(** An [Identifier] is a [str] that hashes and compares by its
    lower-cased form; [trigger.sender] is one. *)
Record Identifier : Type := {
  (** the text of the identifier, as [str(identifier)] gives it *)
  identifier_text : string
}.

(** [Identifier._lower]: lower case, then [[]\~] become [{}|^]. *)
Definition Identifier_lower (s : string) : string :=
  let low := PyStr.lower s in
  let low := PyStr.replace "[" "{" low in
  let low := PyStr.replace "]" "}" low in
  let low := PyStr.replace "\" "|" low in
  PyStr.replace "~" "^" low.

(** [identifier._lowered] *)
Definition lowered (i : Identifier) : string :=
  Identifier_lower (identifier_text i).

(** [identifier in d], [d[identifier]] and [d.get(identifier)] for a dict
    whose keys are plain [str]: the probe hashes as its lower-cased text,
    so only a key with that hash is compared with it (equal hashes are
    taken to mean equal strings), and [Identifier.__eq__] holds when the
    key's own lower-cased text is the probe's. *)
Fixpoint identifier_get {V : Type} (i : Identifier) (d : Dict.t string V) : option V :=
  match d with
  | [] => None
  | (k, v) :: r =>
      if String.eqb k (lowered i) && String.eqb (Identifier_lower k) (lowered i)
      then Some v
      else identifier_get i r
  end.

(** ** Values decoded from JSON *)

#[warnings="-register-all"] Inductive json : Type :=
| JNull
| JBool (b : bool)
| JNum (n : Z)
| JStr (s : string)
| JArr (l : list json)
| JObj (o : list (string * json)).

(** The exceptions the module can meet. [ConnectionError] stands for every
    [requests.exceptions.RequestException] raised while sending a request
    (connection failure, timeout, ...); none of them is an [HTTPError]. *)
Inductive exn : Type :=
| HTTPError (status : Z)
| ConnectionError
| JSONDecodeError
| KeyError (key : string)
| ValueError
| TypeError.

Inductive outcome (A : Type) : Type :=
| Returned (a : A)
| Raised (e : exn).
Arguments Returned {A} a.
Arguments Raised {A} e.

Module Py.

(** [bool(j)] *)
Definition truthy (j : json) : bool :=
  match j with
  | JNull => false
  | JBool b => b
  | JNum n => negb (n =? 0)
  | JStr s => negb (PyStr.is_empty s)
  | JArr l => match l with [] => false | _ => true end
  | JObj o => match o with [] => false | _ => true end
  end.

(** [j[key]] for a [str] key. *)
Definition getitem (j : json) (key : string) : outcome json :=
  match j with
  | JObj o => match Dict.get key o with
              | Some v => Returned v
              | None => Raised (KeyError key)
              end
  | _ => Raised TypeError
  end.

(** [int(j)] *)
Definition int (j : json) : outcome Z :=
  match j with
  | JNum n => Returned n
  | JBool b => Returned (if b then 1 else 0)
  | JStr s => match PyStr.to_int s with
              | Some n => Returned n
              | None => Raised ValueError
              end
  | _ => Raised TypeError
  end.

(** The elements [for x in j] visits. *)
Definition iter (j : json) : outcome (list json) :=
  match j with
  | JArr l => Returned l
  | JObj o => Returned (map (fun kv => JStr (fst kv)) o)
  | JStr s => Returned (map (fun c => JStr (String c EmptyString)) (list_ascii_of_string s))
  | _ => Raised TypeError
  end.

(** [j == s] for a [str] [s]. *)
Definition eq_str (j : json) (s : string) : bool :=
  match j with JStr s' => String.eqb s' s | _ => false end.

(** [repr(j)] *)
Fixpoint repr (j : json) : string :=
  match j with
  | JNull => "None"
  | JBool b => if b then "True" else "False"
  | JNum n => PyStr.of_Z n
  | JStr s => PyStr.repr s
  | JArr l => "[" ++ PyStr.join ", " (map repr l) ++ "]"
  | JObj o =>
      "{" ++ PyStr.join ", "
               (map (fun kv => PyStr.repr (fst kv) ++ ": " ++ repr (snd kv)) o)
          ++ "}"
  end.

(** [str(j)], which is what ['{}'.format(j)] inserts. *)
Definition str (j : json) : string :=
  match j with
  | JStr s => s
  | _ => repr j
  end.

End Py.

(** ** The three regular expressions of the module *)

Module Re.

(** Drop the longest prefix whose characters satisfy [p] (a greedy
    [p*]); no later item of the patterns below can start with a
    character of the class it follows, so backing off never helps. *)
Fixpoint skip (p : ascii -> bool) (s : string) : string :=
  match s with
  | String c t => if p c then skip p t else s
  | EmptyString => EmptyString
  end.

(** The longest prefix whose characters satisfy [p]. *)
Fixpoint span (p : ascii -> bool) (s : string) : string :=
  match s with
  | String c t => if p c then String c (span p t) else EmptyString
  | EmptyString => EmptyString
  end.

(** [[!?]\s*\w+] matched at the start of [s]. *)
Definition looks_like_command (s : string) : bool :=
  match s with
  | String c t =>
      (Ascii.eqb c "!" || Ascii.eqb c "?")
      && match skip PyStr.is_space t with
         | String w _ => PyStr.is_word w
         | EmptyString => false
         end
  | EmptyString => false
  end.

(** [re.match(valid_message_pattern, s)] as a truth value, with
    [valid_message_pattern = r'^(?![!?]\s*\w+)']. *)
Definition match_valid_message (s : string) : bool :=
  negb (looks_like_command s).

(** [$]: the end of the text, or just before a final newline. *)
Definition at_dollar (s : string) : bool :=
  match s with
  | EmptyString => true
  | String c EmptyString => Ascii.eqb c (ascii_of_N 10)
  | _ => false
  end.

(** [.+_$] matched at the start of [s]: [.] takes a character that is
    not a newline, then either [_$] matches what is left or [.] goes on. *)
Fixpoint dot_plus_underscore_end (s : string) : bool :=
  match s with
  | EmptyString => false
  | String c t =>
      negb (Ascii.eqb c (ascii_of_N 10))
      && (match t with
          | String u r => Ascii.eqb u "_" && at_dollar r
          | EmptyString => false
          end
          || dot_plus_underscore_end t)
  end.

(** [re.match(r'^_.+_$', s)] as a truth value. *)
Definition match_action (s : string) : bool :=
  match s with
  | String c t => Ascii.eqb c "_" && dot_plus_underscore_end t
  | EmptyString => false
  end.

(** [<(:\w+:)\d+>] matched at the start of [s]: the text of group 1 and
    what follows the match. *)
Definition match_emoji (s : string) : option (string * string) :=
  match s with
  | String c1 (String c2 t) =>
      if Ascii.eqb c1 "<" && Ascii.eqb c2 ":" then
        let name := span PyStr.is_word t in
        match skip PyStr.is_word t with
        | String c3 u =>
            if negb (PyStr.is_empty name) && Ascii.eqb c3 ":" then
              match skip PyStr.is_digit u with
              | String c4 rest =>
                  if negb (PyStr.is_empty (span PyStr.is_digit u)) && Ascii.eqb c4 ">"
                  then Some (String ":" (name ++ ":"), rest)
                  else None
              | EmptyString => None
              end
            else None
        | EmptyString => None
        end
      else None
  | _ => None
  end.

(** The scan of [re.sub]: at each position, a match is replaced and the
    scan resumes after it; without a match the character is copied. *)
Fixpoint sub_emoji_scan (fuel : nat) (s : string) : string :=
  match fuel with
  | O => s
  | S fuel' =>
      match s with
      | EmptyString => EmptyString
      | String c t =>
          match match_emoji s with
          | Some (group1, rest) => group1 ++ sub_emoji_scan fuel' rest
          | None => String c (sub_emoji_scan fuel' t)
          end
      end
  end.

(** [re.sub(r'<(:\w+:)\d+>', r'\1', s)] *)
Definition sub_emoji (s : string) : string :=
  sub_emoji_scan (String.length s) s.

End Re.

(** ** The world the handlers act on *)

Inductive http_method : Type := GET | POST.

(** One call of [requests.get] or [requests.post]. *)
Record request : Type := {
  req_method : http_method;
  req_url : string;
  req_headers : Dict.t string string;
  req_json : option json
}.

(** What the remote side does with a request: the call raises before any
    response arrives, or a response comes back with a status code and a
    body ([None] when the body does not decode as JSON). *)
Inductive reply : Type :=
| NoResponse
| Response (status : Z) (body : option json).

(** The remote HTTP API: the reply to a request, given how many requests
    were sent before it. *)
Definition network : Type := nat -> request -> reply.

(** A call of the IRC bot: [bot.say(text, channel)] or
    [bot.action(text, channel)]. *)
Inductive irc_call : Type :=
| Say (text channel : string)
| Action (text channel : string).

(** A line written by [print]. *)
Inductive printed : Type :=
| Line (text : string)
| ExnLine (e : exn).

Record config : Type := {
  discord_token : string;
  (** the text of the [channel_mappings] option, if the file has one *)
  channel_mappings_option : option string
}.

Record world : Type := {
  (** [client.channel_mappings] *)
  client_channel_mappings : Dict.t Z string;
  (** [bot.memory['channel_mappings']] *)
  memory_channel_mappings : Dict.t string Z;
  (** [bot.memory['webhooks']] *)
  memory_webhooks : Dict.t Z json;
  (** requests sent so far, oldest first *)
  http_sent : list request;
  (** calls of [bot.say] and [bot.action] so far, oldest first *)
  irc_sent : list irc_call;
  (** lines printed so far, oldest first *)
  stdout : list printed
}.

Definition initial_world : world :=
  {| client_channel_mappings := Dict.empty;
     memory_channel_mappings := Dict.empty;
     memory_webhooks := Dict.empty;
     http_sent := [];
     irc_sent := [];
     stdout := [] |}.

(** Updates of one field. *)
Definition with_client_channel_mappings (d : Dict.t Z string) (w : world) : world :=
  {| client_channel_mappings := d;
     memory_channel_mappings := memory_channel_mappings w;
     memory_webhooks := memory_webhooks w;
     http_sent := http_sent w;
     irc_sent := irc_sent w;
     stdout := stdout w |}.

Definition with_memory_channel_mappings (d : Dict.t string Z) (w : world) : world :=
  {| client_channel_mappings := client_channel_mappings w;
     memory_channel_mappings := d;
     memory_webhooks := memory_webhooks w;
     http_sent := http_sent w;
     irc_sent := irc_sent w;
     stdout := stdout w |}.

Definition with_memory_webhooks (d : Dict.t Z json) (w : world) : world :=
  {| client_channel_mappings := client_channel_mappings w;
     memory_channel_mappings := memory_channel_mappings w;
     memory_webhooks := d;
     http_sent := http_sent w;
     irc_sent := irc_sent w;
     stdout := stdout w |}.

Definition with_http_sent (l : list request) (w : world) : world :=
  {| client_channel_mappings := client_channel_mappings w;
     memory_channel_mappings := memory_channel_mappings w;
     memory_webhooks := memory_webhooks w;
     http_sent := l;
     irc_sent := irc_sent w;
     stdout := stdout w |}.

Definition with_irc_sent (l : list irc_call) (w : world) : world :=
  {| client_channel_mappings := client_channel_mappings w;
     memory_channel_mappings := memory_channel_mappings w;
     memory_webhooks := memory_webhooks w;
     http_sent := http_sent w;
     irc_sent := l;
     stdout := stdout w |}.

Definition with_stdout (l : list printed) (w : world) : world :=
  {| client_channel_mappings := client_channel_mappings w;
     memory_channel_mappings := memory_channel_mappings w;
     memory_webhooks := memory_webhooks w;
     http_sent := http_sent w;
     irc_sent := irc_sent w;
     stdout := l |}.

(** ** State and exceptions *)

Definition M (A : Type) : Type := world -> outcome A * world.

Definition ret {A : Type} (a : A) : M A := fun w => (Returned a, w).

Definition raise {A : Type} (e : exn) : M A := fun w => (Raised e, w).

Definition bind {A B : Type} (m : M A) (k : A -> M B) : M B :=
  fun w => match m w with
           | (Returned a, w') => k a w'
           | (Raised e, w') => (Raised e, w')
           end.

Notation "x <- m ;; k" := (bind m (fun x => k))
  (at level 61, m at next level, right associativity).
Notation "m ;;; k" := (bind m (fun _ => k))
  (at level 61, right associativity).

(** Run an already computed outcome. *)
Definition lift {A : Type} (o : outcome A) : M A := fun w => (o, w).

(** [try: body  except HTTPError as e: handler(e)] *)
Definition try_except_HTTPError (body : M unit) (handler : exn -> M unit) : M unit :=
  fun w => match body w with
           | (Raised (HTTPError status), w') => handler (HTTPError status) w'
           | r => r
           end.

(** [for x in xs: body(x)] *)
Fixpoint for_each {A : Type} (xs : list A) (body : A -> M unit) : M unit :=
  match xs with
  | [] => ret tt
  | x :: rest => body x ;;; for_each rest body
  end.

Definition print (p : printed) : M unit :=
  fun w => (Returned tt, with_stdout (stdout w ++ [p]) w).

Definition irc (c : irc_call) : M unit :=
  fun w => (Returned tt, with_irc_sent (irc_sent w ++ [c]) w).

Definition set_client_channel_mappings (d : Dict.t Z string) : M unit :=
  fun w => (Returned tt, with_client_channel_mappings d w).

Definition set_memory_channel_mappings (d : Dict.t string Z) : M unit :=
  fun w => (Returned tt, with_memory_channel_mappings d w).

Definition set_memory_webhooks (d : Dict.t Z json) : M unit :=
  fun w => (Returned tt, with_memory_webhooks d w).

(** [bot.memory['webhooks'][channel_id] = hook] *)
Definition store_webhook (channel_id : Z) (hook : json) : M unit :=
  fun w => set_memory_webhooks (Dict.set channel_id hook (memory_webhooks w)) w.

(** [bot.memory['webhooks'][channel_id]] *)
Definition load_webhook (channel_id : Z) : M json :=
  fun w => match Dict.get channel_id (memory_webhooks w) with
           | Some hook => (Returned hook, w)
           | None => (Raised (KeyError (PyStr.of_Z channel_id)), w)
           end.

(** ** The [requests] calls *)

(** [requests.get]/[requests.post]: the request is sent; the call returns
    the response or raises when none arrives. *)
Definition send (net : network) (rq : request) : M (Z * option json) :=
  fun w =>
    let w' := with_http_sent (http_sent w ++ [rq]) w in
    match net (List.length (http_sent w)) rq with
    | NoResponse => (Raised ConnectionError, w')
    | Response status body => (Returned (status, body), w')
    end.

(** [r.raise_for_status()]: [HTTPError] for the codes 400 to 599. *)
Definition raise_for_status (r : Z * option json) : M unit :=
  if (400 <=? fst r) && (fst r <? 600) then raise (HTTPError (fst r)) else ret tt.

(** [r.json()] *)
Definition response_json (r : Z * option json) : M json :=
  match snd r with
  | Some j => ret j
  | None => raise JSONDecodeError
  end.

Definition get_world : M world := fun w => (Returned w, w).

(** ** The module *)

Definition DISCORD_API_VERSION : Z := 6.

Definition DISCORD_API_URL : string :=
  "https://discord.com/api/v" ++ PyStr.of_Z DISCORD_API_VERSION.

(** What the module uses of [sopel.formatting]. *)
Record formatting : Type := {
  bold : string -> string;
  color : string -> string -> string;
  colors_LIGHT_CYAN : string
}.

(** A [discord.Message] as far as [on_message] reads it. *)
Record message : Type := {
  clean_content : string;
  author_id : Z;
  author_name : string;
  channel_id : Z;
  (** the [url] of each attachment *)
  attachments : list string
}.

(** The test of the first [if] of [on_message]; [and] stops at the first
    false operand. *)
Definition on_message_guard (message : message) (hook : json) : M bool :=
  w <- get_world ;;
  if Py.truthy hook then
    if Dict.mem (channel_id message) (client_channel_mappings w) then
      hook_id <- lift (Py.getitem hook "id") ;;
      n <- lift (Py.int hook_id) ;;
      if negb (author_id message =? n) then
        ret (Re.match_valid_message (clean_content message))
      else ret false
    else ret false
  else ret false.

(** The text [on_message] relays for [content] and the attachment urls. *)
Definition relayed_text (content : string) (urls : list string) : string :=
  let content := Re.sub_emoji content in
  let content :=
    match urls with
    | [] => content
    | _ :: _ =>
        let extra := ((if PyStr.is_empty content then [] else [content]) ++ urls)%list in
        PyStr.join " " extra
    end in
  PyStr.strip (PyStr.replace (ascii_of_N 10) " " content).

Definition on_message (fmt : formatting) (message : message) : M unit :=
  w <- get_world ;;
  let hook :=
    match Dict.get (channel_id message) (memory_webhooks w) with
    | Some h => h
    | None => JObj []
    end in
  ok <- on_message_guard message hook ;;
  if ok then
    irc_channel <-
      lift (match Dict.get (channel_id message) (client_channel_mappings w) with
            | Some c => Returned c
            | None => Raised (KeyError (PyStr.of_Z (channel_id message)))
            end) ;;
    let content := relayed_text (clean_content message) (attachments message) in
    if negb (PyStr.is_empty content) then
      if Re.match_action content
         && match attachments message with [] => true | _ => false end
      then
        let irc_message := author_name message ++ " " ++ PyStr.slice_1_m1 content in
        irc (Action irc_message irc_channel)
      else
        let name_fmt :=
          color fmt (bold fmt (author_name message)) (colors_LIGHT_CYAN fmt) in
        let irc_message := "<" ++ name_fmt ++ "> " ++ content in
        irc (Say irc_message irc_channel)
    else ret tt
  else ret tt.

Module DictAttribute.

(** The loop of [parse]: [k, v = item.split(':')] raises [ValueError]
    unless the item has exactly two parts. *)
Fixpoint parse_items (pairs : list string) (value : Dict.t string string)
  : outcome (Dict.t string string) :=
  match pairs with
  | [] => Returned value
  | item :: rest =>
      match PyStr.split ":" item with
      | [k; v] => parse_items rest (Dict.set (PyStr.strip k) (PyStr.strip v) value)
      | _ => Raised ValueError
      end
  end.

Definition parse (value : string) : outcome (Dict.t string string) :=
  parse_items (PyStr.split "," value) Dict.empty.

End DictAttribute.

(** [bot.config.discord.channel_mappings]: the parsed option, or the
    default [{}] when the option is absent. *)
Definition config_channel_mappings (cfg : config) : outcome (Dict.t string string) :=
  match channel_mappings_option cfg with
  | Some value => DictAttribute.parse value
  | None => Returned Dict.empty
  end.

(** [{int(k): v for k, v in items}] *)
Fixpoint int_keys (items : list (string * string)) (acc : Dict.t Z string)
  : outcome (Dict.t Z string) :=
  match items with
  | [] => Returned acc
  | (k, v) :: rest =>
      match PyStr.to_int k with
      | Some n => int_keys rest (Dict.set n v acc)
      | None => Raised ValueError
      end
  end.

(** The value [setup] gives [client.channel_mappings]. *)
Definition client_channel_mappings_of (cfg : config) : outcome (Dict.t Z string) :=
  match config_channel_mappings cfg with
  | Returned section => int_keys (Dict.items section) Dict.empty
  | Raised e => Raised e
  end.

(** [{v: k for k, v in d.items()}] *)
Definition invert (d : Dict.t Z string) : Dict.t string Z :=
  Dict.of_pairs (map (fun kv => (snd kv, fst kv)) (Dict.items d)).

(** [repr] of [client.channel_mappings]. *)
Definition repr_channel_mappings (d : Dict.t Z string) : string :=
  "{" ++ PyStr.join ", "
           (map (fun kv => PyStr.of_Z (fst kv) ++ ": " ++ PyStr.repr (snd kv)) d)
      ++ "}".

Definition bot_headers (cfg : config) : Dict.t string string :=
  [("Authorization", "Bot " ++ discord_token cfg)].

Definition channel_webhooks_url (channel_id : Z) : string :=
  DISCORD_API_URL ++ "/channels/" ++ PyStr.of_Z channel_id ++ "/webhooks".

(** [requests.get] of the channel's webhooks. *)
Definition list_webhooks_request (cfg : config) (channel_id : Z) : request :=
  {| req_method := GET;
     req_url := channel_webhooks_url channel_id;
     req_headers := bot_headers cfg;
     req_json := None |}.

(** [requests.post] that creates the channel's webhook. *)
Definition create_webhook_request (cfg : config) (channel_id : Z) : request :=
  let payload := JObj [("name", JStr "discord-irc")] in
  {| req_method := POST;
     req_url := channel_webhooks_url channel_id;
     req_headers := bot_headers cfg;
     req_json := Some payload |}.

(** The body of [for hook in r.json()]. *)
Definition keep_discord_irc_hook (channel_id : Z) (hook : json) : M unit :=
  name <- lift (Py.getitem hook "name") ;;
  if Py.eq_str name "discord-irc" then store_webhook channel_id hook
  else ret tt.

(** The body of the [try] of [_setup_webhooks] for one channel. *)
Definition provision_webhook (net : network) (cfg : config) (channel_id : Z) : M unit :=
  r <- send net (list_webhooks_request cfg channel_id) ;;
  store_webhook channel_id (JObj []) ;;;
  raise_for_status r ;;;
  body <- response_json r ;;
  hooks <- lift (Py.iter body) ;;
  for_each hooks (keep_discord_irc_hook channel_id) ;;;
  current <- load_webhook channel_id ;;
  if negb (Py.truthy current) then
    r <- send net (create_webhook_request cfg channel_id) ;;
    raise_for_status r ;;;
    body <- response_json r ;;
    store_webhook channel_id body
  else ret tt.

(** The [except HTTPError as e] clause of [_setup_webhooks]. *)
Definition report_webhook_failure (channel_id : Z) (e : exn) : M unit :=
  print (Line ("Could not access webhook API for channel "
               ++ PyStr.of_Z channel_id ++ ".")) ;;;
  let quote := String (ascii_of_N 34) EmptyString in
  print (Line ("Make sure the bot user has the " ++ quote ++ "Manage webhooks"
               ++ quote ++ " permission" ++ "on the specified discord channel.")) ;;;
  print (ExnLine e).

(** The [for] loop of [_setup_webhooks] over the items it has left. *)
Definition _setup_webhooks_loop (net : network) (cfg : config)
    (items : list (string * Z)) : M unit :=
  for_each items (fun item =>
    let channel_id := snd item in
    try_except_HTTPError (provision_webhook net cfg channel_id)
                         (report_webhook_failure channel_id)).

Definition _setup_webhooks (net : network) (cfg : config) : M unit :=
  set_memory_webhooks Dict.empty ;;;
  w <- get_world ;;
  _setup_webhooks_loop net cfg (Dict.items (memory_channel_mappings w)).

(** [setup] up to the call of [_setup_webhooks]; the start of the
    gateway client on its own thread, which follows, is not part of the
    model. *)
Definition setup (net : network) (cfg : config) : M unit :=
  mappings <- lift (client_channel_mappings_of cfg) ;;
  set_client_channel_mappings mappings ;;;
  print (Line (repr_channel_mappings mappings)) ;;;
  set_memory_channel_mappings (invert mappings) ;;;
  _setup_webhooks net cfg.

(** A [sopel] trigger as far as [irc_message] reads it. *)
Record trigger : Type := {
  is_privmsg : bool;
  (** [trigger.sender], an [Identifier] *)
  sender : Identifier;
  (** [trigger.match.string] *)
  match_string : string;
  (** [trigger.tags.get('intent')] *)
  tags_intent : option string;
  (** the text of [trigger.nick] *)
  nick : string
}.

Definition webhook_url (hook_id hook_token : json) : string :=
  DISCORD_API_URL ++ "/webhooks/" ++ Py.str hook_id ++ "/" ++ Py.str hook_token.

(** The request [irc_message] posts. *)
Definition delivery_request (cfg : config) (trigger : trigger)
    (hook_id hook_token : json) : request :=
  let headers := bot_headers cfg in
  let content := match_string trigger in
  let content :=
    match tags_intent trigger with
    | Some intent => if String.eqb intent "ACTION" then "_" ++ content ++ "_" else content
    | None => content
    end in
  let payload := JObj [("content", JStr content);
                       ("username", JStr (nick trigger ++ " (IRC)"))] in
  {| req_method := POST;
     req_url := webhook_url hook_id hook_token;
     req_headers := headers;
     req_json := Some payload |}.

(** The handler the dispatcher calls for a channel message that matches
    [valid_message_pattern]. [trigger.sender] is an [Identifier], so the
    membership test and the lookup in [bot.memory['channel_mappings']]
    are [identifier_get]. *)
Definition irc_message (net : network) (cfg : config) (trigger : trigger) : M unit :=
  w <- get_world ;;
  if negb (is_privmsg trigger) then
    match identifier_get (sender trigger) (memory_channel_mappings w) with
    | Some discord_channel =>
        let hook :=
          match Dict.get discord_channel (memory_webhooks w) with
          | Some h => h
          | None => JObj []
          end in
        if Py.truthy hook then
          try_except_HTTPError
            (_ <- lift (Py.getitem hook "id") ;;
             hook_id <- lift (Py.getitem hook "id") ;;
             hook_token <- lift (Py.getitem hook "token") ;;
             r <- send net (delivery_request cfg trigger hook_id hook_token) ;;
             raise_for_status r)
            (fun e => ret tt)
        else ret tt
    | None => ret tt
    end
  else ret tt.

(** ** Sample data *)

Module Sample.

(** [sopel.formatting] with the IRC control codes: [bold] wraps in
    [\x02], [color] wraps in [\x03] after the colour number, and light
    cyan is colour 11. *)
Definition irc_formatting : formatting :=
  {| bold := fun text =>
       String (ascii_of_N 2) (text ++ String (ascii_of_N 2) EmptyString);
     color := fun text fg =>
       String (ascii_of_N 3) (fg ++ text ++ String (ascii_of_N 3) EmptyString);
     colors_LIGHT_CYAN := "11" |}.

Definition cfg : config :=
  {| discord_token := "BOT-TOKEN";
     channel_mappings_option := Some "1234: #irc-channel1, 5678: #irc-channel2" |}.

Definition hook : json :=
  JObj [("name", JStr "discord-irc"); ("id", JStr "77"); ("token", JStr "hook-token")].

(** Both mapped channels have a cached webhook. *)
Definition bridged : world :=
  {| client_channel_mappings := [(1234, "#irc-channel1"); (5678, "#irc-channel2")];
     memory_channel_mappings := [("#irc-channel1", 1234); ("#irc-channel2", 5678)];
     memory_webhooks := [(1234, hook); (5678, hook)];
     http_sent := [];
     irc_sent := [];
     stdout := [] |}.

(** The first channel's registry entry is the empty dict. *)
Definition unprovisioned : world :=
  with_memory_webhooks [(1234, JObj []); (5678, hook)] bridged.

(** The mappings are loaded and no webhook is provisioned yet. *)
Definition loaded : world :=
  with_memory_webhooks Dict.empty bridged.

Definition alice_says_hi : trigger :=
  {| is_privmsg := false;
     sender := {| identifier_text := "#irc-channel1" |};
     match_string := "hi";
     tags_intent := None;
     nick := "alice" |}.

(** The same line on the same channel, its name written in upper
    case. *)
Definition alice_says_hi_upper : trigger :=
  {| is_privmsg := false;
     sender := {| identifier_text := "#IRC-Channel1" |};
     match_string := "hi";
     tags_intent := None;
     nick := "alice" |}.

(** A line on [#Chan]. *)
Definition alice_on_Chan : trigger :=
  {| is_privmsg := false;
     sender := {| identifier_text := "#Chan" |};
     match_string := "hi";
     tags_intent := None;
     nick := "alice" |}.

(** The option names the IRC channel [#Chan], with its upper-case
    letter. *)
Definition bridged_Chan : world :=
  {| client_channel_mappings := [(1234, "#Chan")];
     memory_channel_mappings := [("#Chan", 1234)];
     memory_webhooks := [(1234, hook)];
     http_sent := [];
     irc_sent := [];
     stdout := [] |}.

Definition remote_message (content : string) (author : Z) (urls : list string) : message :=
  {| clean_content := content;
     author_id := author;
     author_name := "bob";
     channel_id := 1234;
     attachments := urls |}.

(** No request gets a response. *)
Definition net_down : network := fun _ _ => NoResponse.

(** Every request is answered with the given status and an empty list. *)
Definition net_status (status : Z) : network :=
  fun _ _ => Response status (Some (JArr [])).

End Sample.

(** [message] with another text. *)
Definition with_clean_content (content : string) (m : message) : message :=
  {| clean_content := content;
     author_id := author_id m;
     author_name := author_name m;
     channel_id := channel_id m;
     attachments := attachments m |}.

(** The event's channel has a cached webhook whose id is an integer other
    than the author's, and is mapped to [irc_channel]: the first three
    operands of the test of [on_message] hold. *)
Definition relayable (w : world) (m : message) (irc_channel : string) : Prop :=
  exists hook hook_id n,
    Dict.get (channel_id m) (memory_webhooks w) = Some hook
    /\ Py.getitem hook "id" = Returned hook_id
    /\ Py.int hook_id = Returned n
    /\ n <> author_id m
    /\ Dict.get (channel_id m) (client_channel_mappings w) = Some irc_channel.

(** The registry has nothing usable for the channel: no entry, or the
    empty dict. *)
Definition no_cached_webhook (w : world) (discord_channel : Z) : Prop :=
  Dict.get discord_channel (memory_webhooks w) = None
  \/ Dict.get discord_channel (memory_webhooks w) = Some (JObj []).

(** Every character of [s] satisfies [p]. *)
Fixpoint all_chars (p : ascii -> bool) (s : string) : bool :=
  match s with
  | EmptyString => true
  | String c t => p c && all_chars p t
  end.



(** One item of the option text as [parse] reads it: the stripped key
    and value, if the item has exactly two parts. *)
Definition split_pair (item : string) : option (string * string) :=
  match PyStr.split ":" item with
  | [k; v] => Some (PyStr.strip k, PyStr.strip v)
  | _ => None
  end.

(** [int] accepts the key. *)
Definition key_ok (k : string) : bool :=
  match PyStr.to_int k with Some _ => true | None => false end.

(** The item has exactly one colon and an integer before it. *)
Definition well_formed_item (item : string) : bool :=
  match split_pair item with
  | Some (k, _) => key_ok k
  | None => false
  end.

(** A parsed item with its key read as an integer. *)
Definition int_key (kv : string * string) : option (Z * string) :=
  match PyStr.to_int (fst kv) with
  | Some n => Some (n, snd kv)
  | None => None
  end.

(** The configured pair [(remote_id, local_id)] an item stands for. *)
Definition configured_pair (item : string) : option (Z * string) :=
  match split_pair item with
  | Some kv => int_key kv
  | None => None
  end.

(** The computation leaves both channel maps as they are. *)
Definition keeps_mappings {A : Type} (m : M A) : Prop :=
  forall w : world,
    client_channel_mappings (snd (m w)) = client_channel_mappings w
    /\ memory_channel_mappings (snd (m w)) = memory_channel_mappings w.

(** ** The rest of [DictAttribute] *)

(** A Python value as [serialize] and [configure] meet it: [None], a
    [str], or a [dict] from [str] to [str] (what [parse] returns). *)
Inductive pyvalue : Type :=
| PyNone
| PyText (s : string)
| PyDict (d : Dict.t string string).

(** [bool(v)] *)
Definition pyvalue_truthy (v : pyvalue) : bool :=
  match v with
  | PyNone => false
  | PyText s => negb (PyStr.is_empty s)
  | PyDict d => match d with [] => false | _ => true end
  end.

(** [DictAttribute.serialize]: [ValueError] unless the value is a dict;
    otherwise the items as [k:v], joined with commas. *)
Definition DictAttribute_serialize (value : pyvalue) : outcome string :=
  match value with
  | PyDict d =>
      Returned (PyStr.join "," (map (fun kv => fst kv ++ ":" ++ snd kv) (Dict.items d)))
  | _ => Raised ValueError
  end.

(** [','.join(values)]: [TypeError] when an element is not a [str]. *)
Fixpoint texts_of (values : list pyvalue) : option (list string) :=
  match values with
  | [] => Some []
  | PyText s :: rest =>
      match texts_of rest with
      | Some l => Some (s :: l)
      | None => None
      end
  | _ :: _ => None
  end.

Definition join_values (values : list pyvalue) : outcome string :=
  match texts_of values with
  | Some l => Returned (PyStr.join "," l)
  | None => Raised TypeError
  end.

(** The console [get_input] talks to: the lines still to be typed, and
    the prompts shown so far, oldest first. *)
Record console : Type := {
  pending : list string;
  shown : list string
}.

(** The [prompt] argument of [configure]: a [str], or a pair of the
    prompt and the prompt shown for each item. *)
Inductive prompt_arg : Type :=
| PromptText (text : string)
| PromptPair (text each_prompt : string).

(** The [default] argument of [configure]. *)
Inductive default_arg : Type :=
| NO_DEFAULT
| Default (v : pyvalue).

(** How a call of [configure] ends: it falls off its end and returns
    [None]; it returns what [parse] returns, or raises what [join] or
    [parse] raises; or [get_input] finds no line to read and raises
    [EOFError]. *)
Inductive configured : Type :=
| ReturnsNone
| Parses (o : outcome (Dict.t string string))
| RaisesEOFError.

(** The [while value:] loop of [configure] once [value] is known to be
    truthy: each turn appends [value] and reads the next one. *)
Fixpoint configure_loop (each_prompt : string) (values : list pyvalue)
    (value : pyvalue) (lines : list string) (prompts : list string)
  : option (list pyvalue) * console :=
  let values := (values ++ [value])%list in
  let prompts := (prompts ++ [(each_prompt ++ " ")%string])%list in
  match lines with
  | [] => (None, {| pending := []; shown := prompts |})
  | line :: rest =>
      if pyvalue_truthy (PyText line)
      then configure_loop each_prompt values (PyText line) rest prompts
      else (Some values, {| pending := rest; shown := prompts |})
  end.

(** [DictAttribute.configure(prompt, default, parent, section_name)];
    the last two arguments are not used. *)
Definition DictAttribute_configure (prompt : prompt_arg) (default : default_arg)
    (c : console) : configured * console :=
  match prompt with
  | PromptText _ => (ReturnsNone, c)
  | PromptPair _ each_prompt =>
      let default :=
        match default with
        | NO_DEFAULT => PyText EmptyString
        | Default v => v
        end in
      let prompts := (shown c ++ [(each_prompt ++ " ")%string])%list in
      match pending c with
      | [] => (RaisesEOFError, {| pending := []; shown := prompts |})
      | line :: rest =>
          let value := if pyvalue_truthy (PyText line) then PyText line else default in
          let read :=
            if pyvalue_truthy value
            then configure_loop each_prompt [] value rest prompts
            else (Some [], {| pending := rest; shown := prompts |}) in
          match read with
          | (None, c') => (RaisesEOFError, c')
          | (Some values, c') =>
              (Parses (match join_values values with
                       | Returned text => DictAttribute.parse text
                       | Raised e => Raised e
                       end), c')
          end
      end
  end.

(** ** Vocabulary of the further properties *)

(** [bot.memory['webhooks'].get(channel, {})] *)
Definition registry_hook (w : world) (channel : Z) : json :=
  match Dict.get channel (memory_webhooks w) with
  | Some h => h
  | None => JObj []
  end.

(** [trigger.tags.get('intent') == 'ACTION'] *)
Definition is_action_intent (t : trigger) : bool :=
  match tags_intent t with
  | Some intent => String.eqb intent "ACTION"
  | None => false
  end.

(** The channel a [say] or [action] call is addressed to. *)
Definition irc_call_channel (c : irc_call) : string :=
  match c with
  | Say _ channel => channel
  | Action _ channel => channel
  end.

(** [hook['name'] == 'discord-irc'], when [hook['name']] exists. *)
Definition named_discord_irc (hook : json) : option bool :=
  match Py.getitem hook "name" with
  | Returned name => Some (Py.eq_str name "discord-irc")
  | Raised _ => None
  end.

(** The last of the hooks named [discord-irc], or [found] if there is
    none. *)
Fixpoint last_discord_irc (hooks : list json) (found : option json) : option json :=
  match hooks with
  | [] => found
  | hook :: rest =>
      last_discord_irc rest
        (match named_discord_irc hook with
         | Some true => Some hook
         | _ => found
         end)
  end.

(** A key or value that [serialize] writes and [parse] reads back as it
    is: no comma, no colon, no white space at either end. *)
Definition plain_text (s : string) : bool :=
  negb (PyStr.contains "," s) && negb (PyStr.contains ":" s)
  && String.eqb (PyStr.strip s) s.

Definition swap {A B : Type} (p : A * B) : B * A := (snd p, fst p).

(** What a computation may touch: it makes no IRC call; the requests it
    sends are at most [n] and each satisfies [P]; and every key it adds to
    the registry is among [allowed]. *)
Definition footprint (P : request -> Prop) (allowed : list Z) (n : nat)
    {A : Type} (m : M A) : Prop :=
  forall w : world,
    irc_sent (snd (m w)) = irc_sent w
    /\ (exists rqs,
           http_sent (snd (m w)) = (http_sent w ++ rqs)%list
           /\ (List.length rqs <= n)%nat
           /\ Forall P rqs)
    /\ forall k, In k (Dict.keys (memory_webhooks (snd (m w)))) ->
                 In k allowed \/ In k (Dict.keys (memory_webhooks w)).

(** A request [_setup_webhooks] may send for one of the given channels:
    a GET or a POST on the channel's webhooks URL, with the bot
    credential as its only header. *)
Definition provisioning_request (cfg : config) (channels : list Z)
    (rq : request) : Prop :=
  exists channel_id,
    In channel_id channels
    /\ req_url rq = channel_webhooks_url channel_id
    /\ req_headers rq = [("Authorization", "Bot " ++ discord_token cfg)].

(** The status is one [raise_for_status] raises for. *)
Definition error_status (status : Z) : Prop := 400 <= status < 600.

(** * Properties *)

Ltac run :=
  unfold bind, ret, raise, lift, get_world, print, irc, store_webhook,
    load_webhook, set_memory_webhooks, set_client_channel_mappings,
    set_memory_channel_mappings, raise_for_status, response_json, send.

Lemma getitem_truthy (j : json) (key : string) (v : json) :
  Py.getitem j key = Returned v -> Py.truthy j = true.
Proof.
  destruct j as [| | | | |o]; simpl; try discriminate.
  destruct o; [discriminate | reflexivity].
Qed.

(** ** The [Identifier] lookup *)

(** [Identifier._lower] acts on each character. *)
Lemma Identifier_lower_cons (c : ascii) (t : string) :
  Identifier_lower (String c t)
  = String (match Identifier_lower (String c EmptyString) with
            | String c' _ => c'
            | EmptyString => c
            end)
           (Identifier_lower t).
Proof. reflexivity. Qed.

Lemma Identifier_lower_single (c : ascii) :
  exists c', Identifier_lower (String c EmptyString) = String c' EmptyString
             /\ Identifier_lower (String c' EmptyString) = String c' EmptyString.
Proof.
  destruct c as [[|] [|] [|] [|] [|] [|] [|] [|]];
    eexists; split; reflexivity.
Qed.

(** Lower-casing twice is lower-casing once. *)
Lemma Identifier_lower_idempotent (s : string) :
  Identifier_lower (Identifier_lower s) = Identifier_lower s.
Proof.
  induction s as [|c t IH]; [reflexivity|].
  rewrite Identifier_lower_cons.
  destruct (Identifier_lower_single c) as (c' & -> & Hc').
  rewrite Identifier_lower_cons, Hc', IH. reflexivity.
Qed.

(** The lookup finds the value stored under the lower-cased text of the
    identifier, and nothing else: a key that is not in lower case is
    never found. *)
Lemma identifier_get_lowered {V : Type} (i : Identifier) (d : Dict.t string V) :
  identifier_get i d = Dict.get (lowered i) d.
Proof.
  induction d as [|[k v] d IH]; [reflexivity|].
  cbn [identifier_get Dict.get eqb Eqb_string].
  rewrite (String.eqb_sym k (lowered i)).
  destruct (String.eqb (lowered i) k) eqn:E; [|exact IH].
  apply String.eqb_eq in E. subst k. unfold lowered.
  now rewrite Identifier_lower_idempotent, String.eqb_refl.
Qed.

(** ** Inbound: loop prevention *)

(** C1. When the author id of a remote message equals the id of the
    webhook cached for its channel, [on_message] returns without calling
    [say] or [action] (and without any other effect), whatever the text
    and the attachments are. *)
Theorem on_message_drops_self_echo
    (fmt : formatting) (m : message) (w : world) (hook hook_id : json) :
  Dict.get (channel_id m) (memory_webhooks w) = Some hook ->
  Py.getitem hook "id" = Returned hook_id ->
  Py.int hook_id = Returned (author_id m) ->
  on_message fmt m w = (Returned tt, w).
Proof.
  intros Hhook Hid Hint.
  unfold on_message, on_message_guard. run.
  rewrite Hhook, (getitem_truthy _ _ _ Hid).
  destruct (Dict.mem (channel_id m) (client_channel_mappings w)); [|reflexivity].
  rewrite Hid, Hint, Z.eqb_refl. reflexivity.
Qed.

Lemma on_message_drops_self_echo_witness :
  on_message Sample.irc_formatting
    (Sample.remote_message "hello there" 77 ["https://cdn.example/cat.png"])
    Sample.bridged
  = (Returned tt, Sample.bridged).
Proof.
  apply (on_message_drops_self_echo _ _ _ Sample.hook (JStr "77")); reflexivity.
Defined.

(** ** Outbound: [irc_message] *)

(** C7. When the trigger's sender resolves in
    [bot.memory['channel_mappings']], by the [Identifier] lookup the code
    performs, to a Discord channel whose registry entry is missing or is
    the empty dict, [irc_message] returns with the world unchanged: no
    request is sent and nothing is emitted. *)
Theorem irc_message_without_webhook_is_noop
    (net : network) (cfg : config) (t : trigger) (w : world) (discord_channel : Z) :
  identifier_get (sender t) (memory_channel_mappings w) = Some discord_channel ->
  no_cached_webhook w discord_channel ->
  irc_message net cfg t w = (Returned tt, w).
Proof.
  intros Hmap Hempty.
  unfold irc_message. run.
  destruct (is_privmsg t); simpl; [reflexivity|].
  rewrite Hmap.
  destruct Hempty as [-> | ->]; reflexivity.
Qed.

Lemma irc_message_without_webhook_is_noop_witness :
  irc_message (Sample.net_status 200) Sample.cfg Sample.alice_says_hi_upper
    Sample.unprovisioned
  = (Returned tt, Sample.unprovisioned).
Proof.
  apply (irc_message_without_webhook_is_noop _ _ _ _ 1234).
  - reflexivity.
  - right. reflexivity.
Defined.

(** C2, as the code has it. For a channel message whose sender
    resolves, by the [Identifier] lookup the code performs, to a Discord
    channel with a cached hook that has [id] and [token]: when the
    delivery POST gets a response, whatever its status code (2xx or not),
    [irc_message] returns normally after that single request: the
    [HTTPError] that [raise_for_status] raises for a 4xx or 5xx status is
    caught in the handler. *)
Theorem irc_message_absorbs_error_status
    (net : network) (cfg : config) (t : trigger) (w : world)
    (discord_channel : Z) (hook hook_id hook_token : json)
    (status : Z) (body : option json) :
  is_privmsg t = false ->
  identifier_get (sender t) (memory_channel_mappings w) = Some discord_channel ->
  Dict.get discord_channel (memory_webhooks w) = Some hook ->
  Py.getitem hook "id" = Returned hook_id ->
  Py.getitem hook "token" = Returned hook_token ->
  net (List.length (http_sent w)) (delivery_request cfg t hook_id hook_token)
    = Response status body ->
  irc_message net cfg t w
  = (Returned tt,
     with_http_sent (http_sent w ++ [delivery_request cfg t hook_id hook_token]) w).
Proof.
  intros Hchan Hmap Hhook Hid Htoken Hreply.
  unfold irc_message, try_except_HTTPError. run.
  rewrite Hchan, Hmap, Hhook, (getitem_truthy _ _ _ Hid), Hid, Htoken.
  cbn [negb]. cbv beta iota. rewrite Hreply. cbn [fst].
  destruct ((400 <=? status) && (status <? 600)); reflexivity.
Qed.

Lemma irc_message_absorbs_error_status_witness :
  irc_message (Sample.net_status 404) Sample.cfg Sample.alice_says_hi_upper
    Sample.bridged
  = (Returned tt,
     with_http_sent
       (http_sent Sample.bridged
        ++ [delivery_request Sample.cfg Sample.alice_says_hi_upper
              (JStr "77") (JStr "hook-token")])
       Sample.bridged).
Proof.
  apply (irc_message_absorbs_error_status _ _ _ _ 1234 Sample.hook _ _
           404 (Some (JArr []))); reflexivity.
Defined.

(** C2 fails for a network error: when the delivery POST gets no
    response, the exception [requests.post] raises is not an [HTTPError]
    and leaves [irc_message]. *)
Lemma irc_message_raises_on_network_error :
  fst (irc_message Sample.net_down Sample.cfg Sample.alice_says_hi Sample.bridged)
  = Raised ConnectionError.
Proof. reflexivity. Qed.

(** C6, as the code has it. Whatever [irc_message] is called with, it
    sends no request or exactly one; that one is a POST to the URL made
    of the id and the token of the webhook cached for the Discord channel
    the sender resolves to (by the [Identifier] lookup the code
    performs), and its [Authorization] header is the bot credential,
    ["Bot "] followed by [discord_token]. *)
Theorem irc_message_delivery_carries_bot_credential
    (net : network) (cfg : config) (t : trigger) (w : world) :
  http_sent (snd (irc_message net cfg t w)) = http_sent w
  \/ exists discord_channel hook hook_id hook_token rq,
       identifier_get (sender t) (memory_channel_mappings w) = Some discord_channel
       /\ Dict.get discord_channel (memory_webhooks w) = Some hook
       /\ Py.getitem hook "id" = Returned hook_id
       /\ Py.getitem hook "token" = Returned hook_token
       /\ http_sent (snd (irc_message net cfg t w)) = (http_sent w ++ [rq])%list
       /\ req_method rq = POST
       /\ req_url rq
          = DISCORD_API_URL ++ "/webhooks/" ++ Py.str hook_id ++ "/" ++ Py.str hook_token
       /\ Dict.get "Authorization" (req_headers rq)
          = Some ("Bot " ++ discord_token cfg).
Proof.
  unfold irc_message, try_except_HTTPError. run.
  destruct (is_privmsg t); simpl; [now left|].
  destruct (identifier_get (sender t) (memory_channel_mappings w)) as [discord_channel|] eqn:Hmap;
    [|now left].
  destruct (Dict.get discord_channel (memory_webhooks w)) as [hook|] eqn:Hhook;
    simpl; [|now left].
  destruct (Py.truthy hook); [|now left].
  destruct (Py.getitem hook "id") as [hook_id|e] eqn:Hid;
    [|destruct e; now left].
  destruct (Py.getitem hook "token") as [hook_token|e] eqn:Htoken;
    [|destruct e; now left].
  right.
  exists discord_channel, hook, hook_id, hook_token,
    (delivery_request cfg t hook_id hook_token).
  repeat split; try reflexivity; try assumption.
  destruct (net (List.length (http_sent w)) (delivery_request cfg t hook_id hook_token))
    as [|status body]; simpl; [reflexivity|].
  destruct ((400 <=? status) && (status <? 600)); reflexivity.
Qed.

(** C6 fails: the delivery POST of a relayed line carries the bot
    credential in its [Authorization] header. *)
Lemma irc_message_delivery_has_bot_header :
  http_sent (snd (irc_message (Sample.net_status 204) Sample.cfg
                    Sample.alice_says_hi Sample.bridged))
  = [ {| req_method := POST;
         req_url := "https://discord.com/api/v6/webhooks/77/hook-token";
         req_headers := [("Authorization", "Bot BOT-TOKEN")];
         req_json := Some (JObj [("content", JStr "hi");
                                 ("username", JStr "alice (IRC)")]) |} ].
Proof. reflexivity. Qed.

(** ** Inbound: the emoji substitution *)


Section EmojiSubstitution.

Import Re.

Lemma skip_length (p : ascii -> bool) (s : string) :
  (String.length (skip p s) <= String.length s)%nat.
Proof.
  induction s as [|c t IH]; simpl; [lia|].
  destruct (p c); simpl; lia.
Qed.





Lemma match_emoji_shorter (s group1 rest : string) :
  match_emoji s = Some (group1, rest) ->
  (String.length rest < String.length s)%nat.
Proof.
  destruct s as [|c1 [|c2 t]]; simpl; try discriminate.
  destruct (Ascii.eqb c1 "<" && Ascii.eqb c2 ":"); [|discriminate].
  pose proof (skip_length PyStr.is_word t) as Hw.
  destruct (skip PyStr.is_word t) as [|c3 u]; [discriminate|].
  destruct (negb (PyStr.is_empty (span PyStr.is_word t)) && Ascii.eqb c3 ":");
    [|discriminate].
  pose proof (skip_length PyStr.is_digit u) as Hd.
  destruct (skip PyStr.is_digit u) as [|c4 rest']; [discriminate|].
  destruct (negb (PyStr.is_empty (span PyStr.is_digit u)) && Ascii.eqb c4 ">");
    [|discriminate].
  intros H. injection H as _ <-. simpl in *. lia.
Qed.

(** Fuel beyond the length of the text changes nothing. *)
Lemma sub_emoji_scan_fuel (n : nat) :
  forall (s : string) (m : nat),
    (String.length s <= n)%nat -> (String.length s <= m)%nat ->
    sub_emoji_scan n s = sub_emoji_scan m s.
Proof.
  induction n as [|n IH]; intros s m Hn Hm.
  - destruct s; [|simpl in Hn; lia]. now destruct m.
  - destruct m as [|m].
    + destruct s; [reflexivity | simpl in Hm; lia].
    + destruct s as [|c t]; [reflexivity|].
      cbn [sub_emoji_scan].
      destruct (match_emoji (String c t)) as [[group1 rest]|] eqn:Hmatch.
      * apply match_emoji_shorter in Hmatch.
        f_equal. apply IH; lia.
      * f_equal. simpl in Hn, Hm. apply IH; lia.
Qed.

(** The equation of the scan. *)
Lemma sub_emoji_step (c : ascii) (t : string) :
  sub_emoji (String c t)
  = match match_emoji (String c t) with
    | Some (group1, rest) => group1 ++ sub_emoji rest
    | None => String c (sub_emoji t)
    end.
Proof.
  unfold sub_emoji. cbn [String.length sub_emoji_scan].
  destruct (match_emoji (String c t)) as [[group1 rest]|] eqn:Hmatch.
  - apply match_emoji_shorter in Hmatch. simpl in Hmatch.
    f_equal. apply sub_emoji_scan_fuel; lia.
  - reflexivity.
Qed.




End EmojiSubstitution.



(** ** Inbound: filtering and action detection *)

Section Inbound.

Import PyStr.

Lemma not_space_not_newline (c : ascii) :
  is_space c = false -> Ascii.eqb c (ascii_of_N 10) = false.
Proof.
  intros H. destruct (Ascii.eqb_spec c (ascii_of_N 10)) as [->|]; [|reflexivity].
  discriminate H.
Qed.

Lemma strip_head (c : ascii) (t : string) :
  is_space c = false -> strip (String c t) = String c (rstrip t).
Proof.
  intros H. unfold strip. cbn [lstrip]. rewrite H. cbn [rstrip].
  now rewrite H, andb_false_r.
Qed.

Lemma replace_app (a b : ascii) (s t : string) :
  replace a b (s ++ t) = replace a b s ++ replace a b t.
Proof. induction s as [|c s IH]; simpl; [reflexivity | now rewrite IH]. Qed.

(** [rstrip] keeps everything up to a character that is not a space. *)
Lemma rstrip_app_nonspace (pre : string) (c : ascii) (t : string) :
  is_space c = false ->
  exists r, rstrip (pre ++ String c t) = pre ++ String c r.
Proof.
  intros H. induction pre as [|d pre [r IH]].
  - exists (rstrip t). cbn [String.append rstrip]. now rewrite H, andb_false_r.
  - exists r. cbn [String.append rstrip]. rewrite IH.
    now destruct pre.
Qed.

(** A text that starts with a character other than a space and [<]
    still starts with it when relayed. *)
Lemma relayed_text_head (c : ascii) (t : string) (urls : list string) :
  is_space c = false -> Ascii.eqb c "<" = false ->
  exists tail, relayed_text (String c t) urls = String c tail.
Proof.
  intros Hsp Hlt. unfold relayed_text.
  rewrite sub_emoji_step.
  assert (Hnone : Re.match_emoji (String c t) = None).
  { destruct t; simpl; [reflexivity | now rewrite Hlt]. }
  rewrite Hnone.
  destruct urls as [|u us].
  - cbn [replace]. rewrite (not_space_not_newline _ Hsp), (strip_head _ _ Hsp).
    eexists. reflexivity.
  - cbn [is_empty List.app join String.append replace].
    rewrite (not_space_not_newline _ Hsp), (strip_head _ _ Hsp).
    eexists. reflexivity.
Qed.

Lemma looks_like_command_head (s : string) :
  Re.looks_like_command s = true ->
  exists c t, s = String c t /\ is_space c = false /\ Ascii.eqb c "<" = false
              /\ Ascii.eqb c "_" = false.
Proof.
  destruct s as [|c t]; simpl; [discriminate|].
  intros H. apply andb_true_iff in H as [H _].
  exists c, t. split; [reflexivity|].
  apply orb_true_iff in H as [H | H]; apply Ascii.eqb_eq in H; subst c;
    repeat split; reflexivity.
Qed.

Variable fmt : formatting.

(** What [on_message] does with a message that passes the first three
    operands of its test. *)
Lemma on_message_relayable (m : message) (w : world) (irc_channel : string) :
  relayable w m irc_channel ->
  on_message fmt m w
  = if Re.match_valid_message (clean_content m) then
      let content := relayed_text (clean_content m) (attachments m) in
      if is_empty content then (Returned tt, w)
      else if Re.match_action content
              && match attachments m with [] => true | _ => false end
           then (Returned tt,
                 with_irc_sent
                   (irc_sent w ++ [Action (author_name m ++ " " ++ slice_1_m1 content)
                                     irc_channel]) w)
           else (Returned tt,
                 with_irc_sent
                   (irc_sent w
                    ++ [Say ("<" ++ color fmt (bold fmt (author_name m))
                                      (colors_LIGHT_CYAN fmt)
                                 ++ "> " ++ content) irc_channel]) w)
    else (Returned tt, w).
Proof.
  intros (hook & hook_id & n & Hhook & Hid & Hint & Hne & Hmap).
  unfold on_message, on_message_guard, Dict.mem. run.
  rewrite Hhook, (getitem_truthy _ _ _ Hid), Hmap, Hid, Hint.
  assert (Hneq : (author_id m =? n) = false) by (apply Z.eqb_neq; congruence).
  rewrite Hneq. cbn [negb].
  destruct (Re.match_valid_message (clean_content m)); [|reflexivity].
  cbv zeta.
  destruct (is_empty (relayed_text (clean_content m) (attachments m)));
    [reflexivity|].
  cbn [negb].
  now destruct (Re.match_action (relayed_text (clean_content m) (attachments m))
                && match attachments m with [] => true | _ => false end).
Qed.

End Inbound.

(** C9. For a remote message that passes the loop check on a mapped
    channel, the text ["!help"] is discarded by the command filter: no
    [say], no [action], no other effect.  The same message with the text
    ["hello"] passes the filter and is forwarded with one [say] on the
    mapped IRC channel. *)
Theorem on_message_filters_commands
    (fmt : formatting) (m : message) (w : world) (irc_channel : string) :
  relayable w m irc_channel ->
  Re.match_valid_message "!help" = false
  /\ on_message fmt (with_clean_content "!help" m) w = (Returned tt, w)
  /\ Re.match_valid_message "hello" = true
  /\ on_message fmt (with_clean_content "hello" m) w
     = (Returned tt,
        with_irc_sent
          (irc_sent w
           ++ [Say ("<" ++ color fmt (bold fmt (author_name m)) (colors_LIGHT_CYAN fmt)
                        ++ "> " ++ relayed_text "hello" (attachments m))
                 irc_channel]) w).
Proof.
  intros Hrel.
  split; [reflexivity|]. split; [|split; [reflexivity|]].
  - rewrite (on_message_relayable fmt _ w irc_channel) by exact Hrel.
    reflexivity.
  - rewrite (on_message_relayable fmt _ w irc_channel) by exact Hrel.
    cbn [with_clean_content clean_content attachments author_name].
    change (Re.match_valid_message "hello") with true. cbv iota zeta.
    destruct (relayed_text_head "h" "ello" (attachments m)) as [tail ->];
      [reflexivity | reflexivity |].
    cbn [PyStr.is_empty].
    destruct (attachments m) as [|u us] eqn:Hurls.
    + destruct (relayed_text_head "h" "ello" []) as [tail' Htail];
        [reflexivity | reflexivity |].
      assert (Hhello : relayed_text "hello" [] = "hello") by reflexivity.
      rewrite Hhello in Htail. injection Htail as <-. reflexivity.
    + now rewrite andb_false_r.
Qed.

Lemma on_message_filters_commands_witness :
  on_message Sample.irc_formatting (Sample.remote_message "!help" 5 []) Sample.bridged
  = (Returned tt, Sample.bridged)
  /\ irc_sent (snd (on_message Sample.irc_formatting
                      (Sample.remote_message "hello" 5 []) Sample.bridged))
     = [Say ("<" ++ color Sample.irc_formatting (bold Sample.irc_formatting "bob") "11"
                 ++ "> hello") "#irc-channel1"].
Proof.
  assert (Hrel : relayable Sample.bridged (Sample.remote_message "unused" 5 [])
                   "#irc-channel1").
  { exists Sample.hook, (JStr "77"), 77.
    repeat split; try reflexivity. discriminate. }
  pose proof (on_message_filters_commands Sample.irc_formatting _ _ _ Hrel)
    as (_ & Hhelp & _ & Hhello).
  split; [exact Hhelp|].
  change (Sample.remote_message "hello" 5 [])
    with (with_clean_content "hello" (Sample.remote_message "unused" 5 [])).
  rewrite Hhello. reflexivity.
Defined.

(** C10. For a remote message that passes the loop check on a mapped
    channel: without attachments, a text that normalizes to
    ["_doing a thing_"] is emitted with [action], the markers stripped,
    as the author's name followed by ["doing a thing"]; with attachments,
    the text ["_doing a thing_"] is emitted with [say], and the relayed
    text still starts with ["_doing a thing_"], markers included. *)
Theorem on_message_action_detection
    (fmt : formatting) (m : message) (w : world) (irc_channel : string) :
  relayable w m irc_channel ->
  (attachments m = [] ->
   relayed_text (clean_content m) [] = "_doing a thing_" ->
   on_message fmt m w
   = (Returned tt,
      with_irc_sent
        (irc_sent w ++ [Action (author_name m ++ " " ++ "doing a thing") irc_channel])
        w))
  /\ (attachments m <> [] ->
      clean_content m = "_doing a thing_" ->
      exists tail,
        relayed_text (clean_content m) (attachments m) = "_doing a thing_" ++ tail
        /\ on_message fmt m w
           = (Returned tt,
              with_irc_sent
                (irc_sent w
                 ++ [Say ("<" ++ color fmt (bold fmt (author_name m))
                                   (colors_LIGHT_CYAN fmt)
                              ++ "> " ++ "_doing a thing_" ++ tail)
                       irc_channel]) w)).
Proof.
  intros Hrel. split.
  - intros Hurls Htext.
    rewrite (on_message_relayable fmt m w irc_channel Hrel), Hurls, Htext.
    assert (Hvalid : Re.match_valid_message (clean_content m) = true).
    { unfold Re.match_valid_message.
      destruct (Re.looks_like_command (clean_content m)) eqn:Hcmd; [|reflexivity].
      apply looks_like_command_head in Hcmd as (c & t & Hs & Hsp & Hlt & Hus).
      destruct (relayed_text_head c t [] Hsp Hlt) as [tail Htail].
      rewrite Hs, Htail in Htext. injection Htext as -> _. discriminate Hus. }
    rewrite Hvalid. reflexivity.
  - intros Hurls Htext.
    assert (Hkept : exists tail,
               relayed_text "_doing a thing_" (attachments m) = "_doing a thing_" ++ tail).
    { destruct (attachments m) as [|u us]; [contradiction|].
      unfold relayed_text.
      change (Re.sub_emoji "_doing a thing_") with "_doing a thing_".
      cbn [PyStr.is_empty List.app PyStr.join].
      rewrite replace_app.
      set (rest := PyStr.replace (ascii_of_N 10) " " (" " ++ PyStr.join " " (u :: us))).
      change (PyStr.replace (ascii_of_N 10) " " "_doing a thing_")
        with "_doing a thing_".
      destruct (rstrip_app_nonspace "doing a thing" "_" rest) as [r Hr];
        [reflexivity|].
      exists r.
      cbn [String.append] in Hr |- *.
      rewrite strip_head by reflexivity. f_equal. exact Hr. }
    destruct Hkept as [tail Htail]. exists tail.
    rewrite (on_message_relayable fmt m w irc_channel Hrel), Htext, Htail.
    split; [reflexivity|].
    change (Re.match_valid_message "_doing a thing_") with true.
    cbn [String.append PyStr.is_empty]. cbv iota zeta.
    destruct (attachments m); [contradiction|].
    now rewrite andb_false_r.
Qed.

Lemma on_message_action_detection_witness :
  on_message Sample.irc_formatting
    (Sample.remote_message "_doing a thing_" 5 []) Sample.bridged
  = (Returned tt,
     with_irc_sent [Action "bob doing a thing" "#irc-channel1"] Sample.bridged)
  /\ exists tail,
       relayed_text "_doing a thing_" ["https://cdn.example/cat.png"]
       = "_doing a thing_" ++ tail
       /\ on_message Sample.irc_formatting
            (Sample.remote_message "_doing a thing_" 5 ["https://cdn.example/cat.png"])
            Sample.bridged
          = (Returned tt,
             with_irc_sent
               [Say ("<" ++ color Sample.irc_formatting
                              (bold Sample.irc_formatting "bob") "11"
                         ++ "> " ++ "_doing a thing_" ++ tail)
                  "#irc-channel1"]
               Sample.bridged).
Proof.
  assert (Hrel : forall text urls,
             relayable Sample.bridged (Sample.remote_message text 5 urls)
               "#irc-channel1").
  { intros. exists Sample.hook, (JStr "77"), 77.
    repeat split; try reflexivity. discriminate. }
  split.
  - apply (proj1 (on_message_action_detection Sample.irc_formatting _ _ _
                    (Hrel "_doing a thing_" []))); reflexivity.
  - apply (proj2 (on_message_action_detection Sample.irc_formatting _ _ _
                    (Hrel "_doing a thing_" ["https://cdn.example/cat.png"])));
      [discriminate | reflexivity].
Defined.

(** ** Dictionaries *)

Section DictFacts.

Context {K V : Type} `{Eqb K}.

Lemma eqb_refl (k : K) : eqb k k = true.
Proof. now apply eqb_spec. Qed.

Lemma eqb_neq (k k' : K) : k <> k' -> eqb k k' = false.
Proof.
  intros Hne. destruct (eqb k k') eqn:E; [|reflexivity].
  apply eqb_spec in E. contradiction.
Qed.

Lemma get_set_same (k : K) (v : V) (d : Dict.t K V) :
  Dict.get k (Dict.set k v d) = Some v.
Proof.
  induction d as [|[k' v'] d IH]; simpl.
  - now rewrite eqb_refl.
  - destruct (eqb k k') eqn:E; simpl; rewrite E; [reflexivity | exact IH].
Qed.

Lemma set_fresh (k : K) (v : V) (d : Dict.t K V) :
  ~ In k (Dict.keys d) -> Dict.set k v d = (d ++ [(k, v)])%list.
Proof.
  induction d as [|[k' v'] d IH]; simpl; intros Hnot; [reflexivity|].
  rewrite eqb_neq by (intros ->; apply Hnot; now left).
  rewrite IH; [reflexivity | tauto].
Qed.

Lemma keys_set (k : K) (v : V) (d : Dict.t K V) (k' : K) :
  In k' (Dict.keys (Dict.set k v d)) <-> k' = k \/ In k' (Dict.keys d).
Proof.
  induction d as [|[k0 v0] d IH]; simpl.
  - intuition.
  - destruct (eqb k k0) eqn:E; simpl.
    + apply eqb_spec in E. subst k0. intuition.
    + rewrite IH. intuition.
Qed.

Lemma NoDup_keys_set (k : K) (v : V) (d : Dict.t K V) :
  NoDup (Dict.keys d) -> NoDup (Dict.keys (Dict.set k v d)).
Proof.
  induction d as [|[k0 v0] d IH]; simpl; intros Hnd.
  - constructor; [intros [] | constructor].
  - inversion Hnd as [|? ? Hnot Hrest]; subst.
    destruct (eqb k k0) eqn:E; simpl.
    + now constructor.
    + constructor; [|now apply IH].
      rewrite keys_set. intros [-> | Hin]; [|contradiction].
      rewrite eqb_refl in E. discriminate.
Qed.

(** Items with distinct fresh keys are appended in order. *)
Lemma fold_set_fresh (pairs : list (K * V)) :
  forall d : Dict.t K V,
    NoDup (Dict.keys d ++ map fst pairs) ->
    fold_left (fun d kv => Dict.set (fst kv) (snd kv) d) pairs d
    = (d ++ pairs)%list.
Proof.
  induction pairs as [|[k v] pairs IH]; intros d Hnd; simpl.
  - now rewrite app_nil_r.
  - rewrite set_fresh.
    + rewrite IH.
      * now rewrite <- app_assoc.
      * unfold Dict.keys in *. rewrite map_app, <- app_assoc. exact Hnd.
    + apply NoDup_remove_2 in Hnd. intros Hin. apply Hnd.
      apply in_or_app. now left.
Qed.

Lemma get_In_NoDup (k : K) (v : V) (d : Dict.t K V) :
  NoDup (Dict.keys d) -> In (k, v) d -> Dict.get k d = Some v.
Proof.
  induction d as [|[k' v'] d IH]; simpl; intros Hnd Hin; [contradiction|].
  inversion Hnd as [|? ? Hnot Hrest]; subst.
  destruct Hin as [Heq | Hin].
  - injection Heq as -> ->. now rewrite eqb_refl.
  - rewrite eqb_neq; [now apply IH|].
    intros ->. apply Hnot. apply (in_map fst) in Hin. exact Hin.
Qed.

End DictFacts.

(** ** Start-up: provisioning the webhooks *)

Section Provisioning.

Variable net : network.
Variable cfg : config.

Lemma bind_run {A B : Type} (m : M A) (k : A -> M B) (w : world) :
  bind m k w = match m w with
               | (Returned a, w') => k a w'
               | (Raised e, w') => (Raised e, w')
               end.
Proof. reflexivity. Qed.


(** An [HTTPError] raised while provisioning a channel is caught by the
    loop, which prints the failure and goes on with the next item. *)
Lemma loop_after_http_error (k : string) (channel_id : Z)
    (rest : list (string * Z)) (w w1 : world) (status : Z) :
  provision_webhook net cfg channel_id w = (Raised (HTTPError status), w1) ->
  _setup_webhooks_loop net cfg ((k, channel_id) :: rest) w
  = _setup_webhooks_loop net cfg rest
      (snd (report_webhook_failure channel_id (HTTPError status) w1)).
Proof.
  intros Hrun. unfold _setup_webhooks_loop. cbn [for_each snd].
  rewrite bind_run. unfold try_except_HTTPError at 1. rewrite Hrun.
  reflexivity.
Qed.


End Provisioning.

(** The hypothesis of the theorem above is met as soon as the GET is
    answered with a 4xx or 5xx status. *)
Lemma provision_webhook_get_error_status
    (net : network) (cfg : config) (channel_id : Z) (w : world)
    (status : Z) (body : option json) :
  net (List.length (http_sent w)) (list_webhooks_request cfg channel_id)
    = Response status body ->
  400 <= status < 600 ->
  provision_webhook net cfg channel_id w
  = (Raised (HTTPError status),
     with_memory_webhooks
       (Dict.set channel_id (JObj []) (memory_webhooks w))
       (with_http_sent (http_sent w ++ [list_webhooks_request cfg channel_id]) w)).
Proof.
  intros Hget Hstatus.
  unfold provision_webhook. rewrite bind_run. unfold send at 1. rewrite Hget.
  rewrite bind_run. cbn [store_webhook set_memory_webhooks].
  rewrite bind_run. unfold raise_for_status at 1. cbn [fst].
  replace ((400 <=? status) && (status <? 600)) with true; [reflexivity|].
  symmetry. apply andb_true_iff. split; [apply Z.leb_le | apply Z.ltb_lt]; lia.
Qed.



(** ** Start-up: the channel mapping table *)

Section MappingTable.

Lemma parse_items_cons (item : string) (rest : list string)
    (value : Dict.t string string) :
  DictAttribute.parse_items (item :: rest) value
  = match split_pair item with
    | Some (k, v) => DictAttribute.parse_items rest (Dict.set k v value)
    | None => Raised ValueError
    end.
Proof.
  unfold split_pair. cbn [DictAttribute.parse_items].
  now destruct (PyStr.split ":" item) as [|k [|v [|x l]]].
Qed.

Lemma key_ok_keys_set (k v : string) (d : Dict.t string string) :
  forallb key_ok (Dict.keys (Dict.set k v d))
  = key_ok k && forallb key_ok (Dict.keys d).
Proof.
  unfold Dict.keys.
  induction d as [|[k0 v0] d IH]; cbn.
  - reflexivity.
  - destruct (String.eqb k k0) eqn:E; cbn.
    + apply String.eqb_eq in E. subst k0.
      now destruct (key_ok k).
    + rewrite IH. now destruct (key_ok k), (key_ok k0).
Qed.

(** [parse] fails exactly on an item without exactly two parts; the keys
    of its result are the keys it started from and the items' keys. *)
Lemma parse_items_outcome (items : list string) :
  forall value : Dict.t string string,
    match DictAttribute.parse_items items value with
    | Returned d =>
        forallb key_ok (Dict.keys d)
        = forallb key_ok (Dict.keys value) && forallb well_formed_item items
    | Raised e => e = ValueError /\ forallb well_formed_item items = false
    end.
Proof.
  induction items as [|item rest IH]; intros value.
  - cbn. now rewrite andb_true_r.
  - rewrite parse_items_cons. cbn [forallb]. unfold well_formed_item at 1 3.
    destruct (split_pair item) as [[k v]|]; [|now split].
    specialize (IH (Dict.set k v value)).
    destruct (DictAttribute.parse_items rest (Dict.set k v value)) as [d|e].
    + rewrite IH, key_ok_keys_set.
      now destruct (key_ok k), (forallb key_ok (Dict.keys value)),
        (forallb well_formed_item rest).
    + destruct IH as [-> IH]. rewrite IH. split; [reflexivity|].
      apply andb_false_r.
Qed.

(** The dict comprehension of [setup] fails exactly on a key that [int]
    rejects, and its result has each key once. *)
Lemma int_keys_outcome (items : list (string * string)) :
  forall acc : Dict.t Z string,
    NoDup (Dict.keys acc) ->
    match int_keys items acc with
    | Returned m => forallb key_ok (map fst items) = true /\ NoDup (Dict.keys m)
    | Raised e => e = ValueError /\ forallb key_ok (map fst items) = false
    end.
Proof.
  induction items as [|[k v] rest IH]; intros acc Hnd.
  - now split.
  - cbn [int_keys map fst forallb]. unfold key_ok at 1 3.
    destruct (PyStr.to_int k) as [n|]; [|now split].
    apply (IH (Dict.set n v acc)). now apply NoDup_keys_set.
Qed.

(** C4, as the code has it. Construction of the channel mapping table
    does not look for repeated ids.  When every item of the option has
    exactly one colon and an integer before it, the table is built,
    repeats or not, with each remote id once; when some item is not of
    that form, construction raises [ValueError] and [setup] fails with it
    before doing anything else. *)
Theorem channel_mappings_fail_only_when_malformed
    (cfg : config) (value : string) :
  channel_mappings_option cfg = Some value ->
  (forallb well_formed_item (PyStr.split "," value) = true ->
   exists mappings,
     client_channel_mappings_of cfg = Returned mappings
     /\ NoDup (Dict.keys mappings))
  /\ (forallb well_formed_item (PyStr.split "," value) = false ->
      client_channel_mappings_of cfg = Raised ValueError
      /\ forall (net : network) (w : world),
           setup net cfg w = (Raised ValueError, w)).
Proof.
  intros Hoption.
  assert (Hchar :
    match client_channel_mappings_of cfg with
    | Returned m =>
        forallb well_formed_item (PyStr.split "," value) = true
        /\ NoDup (Dict.keys m)
    | Raised e =>
        e = ValueError /\ forallb well_formed_item (PyStr.split "," value) = false
    end).
  { unfold client_channel_mappings_of, config_channel_mappings. rewrite Hoption.
    unfold DictAttribute.parse.
    pose proof (parse_items_outcome (PyStr.split "," value) Dict.empty) as Hparse.
    destruct (DictAttribute.parse_items (PyStr.split "," value) Dict.empty)
      as [section|e]; [|exact Hparse].
    cbn [Dict.keys Dict.empty map forallb andb] in Hparse.
    pose proof (int_keys_outcome (Dict.items section) Dict.empty (NoDup_nil Z)) as Hint.
    unfold Dict.keys in Hparse. unfold Dict.items in *.
    destruct (int_keys section Dict.empty) as [m|e].
    - destruct Hint as [Hkeys Hnd]. split; [congruence | exact Hnd].
    - destruct Hint as [-> Hkeys]. split; [reflexivity | congruence]. }
  split; intros Hitems.
  - destruct (client_channel_mappings_of cfg) as [m|e].
    + exists m. split; [reflexivity | apply Hchar].
    + destruct Hchar as [_ Hchar]. congruence.
  - destruct (client_channel_mappings_of cfg) as [m|e] eqn:Hof.
    + destruct Hchar as [Hchar _]. congruence.
    + destruct Hchar as [-> _]. split; [reflexivity|].
      intros net w. unfold setup. rewrite bind_run. unfold lift. now rewrite Hof.
Qed.

Lemma channel_mappings_fail_only_when_malformed_witness :
  exists mappings,
    client_channel_mappings_of
      {| discord_token := "BOT-TOKEN";
         channel_mappings_option := Some "1234: #a, 1234: #b, 5678: #b" |}
    = Returned mappings
    /\ NoDup (Dict.keys mappings).
Proof.
  apply (proj1 (channel_mappings_fail_only_when_malformed
                  {| discord_token := "BOT-TOKEN";
                     channel_mappings_option := Some "1234: #a, 1234: #b, 5678: #b" |}
                  "1234: #a, 1234: #b, 5678: #b" eq_refl)).
  reflexivity.
Defined.

(** C4 fails: an option in which a remote id repeats, and one in which a
    local id repeats, are both accepted; [setup] builds the maps with the
    repeated id once. *)
Lemma setup_accepts_repeated_ids :
  (let w := snd (setup (Sample.net_status 200)
                   {| discord_token := "BOT-TOKEN";
                      channel_mappings_option := Some "1234: #a, 1234: #b" |}
                   initial_world) in
   client_channel_mappings w = [(1234, "#b")]
   /\ memory_channel_mappings w = [("#b", 1234)])
  /\ (let w := snd (setup (Sample.net_status 200)
                      {| discord_token := "BOT-TOKEN";
                         channel_mappings_option := Some "1234: #a, 5678: #a" |}
                      initial_world) in
      client_channel_mappings w = [(1234, "#a"); (5678, "#a")]
      /\ memory_channel_mappings w = [("#a", 5678)])
  /\ fst (setup (Sample.net_status 200)
            {| discord_token := "BOT-TOKEN";
               channel_mappings_option := Some "1234: #a, 1234: #b" |}
            initial_world)
     = Returned tt.
Proof. repeat split; reflexivity. Qed.

End MappingTable.

(** ** Start-up: the two maps are inverse of each other *)

Section Frame.

Lemma keeps_ret {A : Type} (a : A) : keeps_mappings (ret a).
Proof. now intros w. Qed.

Lemma keeps_raise {A : Type} (e : exn) : keeps_mappings (@raise A e).
Proof. now intros w. Qed.

Lemma keeps_lift {A : Type} (o : outcome A) : keeps_mappings (lift o).
Proof. now intros w. Qed.

Lemma keeps_get_world : keeps_mappings get_world.
Proof. now intros w. Qed.

Lemma keeps_bind {A B : Type} (m : M A) (k : A -> M B) :
  keeps_mappings m -> (forall a, keeps_mappings (k a)) -> keeps_mappings (bind m k).
Proof.
  intros Hm Hk w. rewrite bind_run. specialize (Hm w).
  destruct (m w) as [[a|e] w'].
  - destruct (Hk a w') as [H1 H2]. cbn [snd] in Hm. destruct Hm as [<- <-].
    now split.
  - exact Hm.
Qed.

Lemma keeps_try (body : M unit) (handler : exn -> M unit) :
  keeps_mappings body -> (forall e, keeps_mappings (handler e)) ->
  keeps_mappings (try_except_HTTPError body handler).
Proof.
  intros Hb Hh w. unfold try_except_HTTPError. specialize (Hb w).
  destruct (body w) as [[a|e] w']; [exact Hb|].
  destruct e; try exact Hb.
  destruct (Hh (HTTPError status) w') as [H1 H2]. cbn [snd] in Hb.
  destruct Hb as [<- <-]. now split.
Qed.

Lemma keeps_for_each {A : Type} (xs : list A) (body : A -> M unit) :
  (forall x, keeps_mappings (body x)) -> keeps_mappings (for_each xs body).
Proof.
  intros Hbody. induction xs as [|x xs IH]; cbn [for_each].
  - apply keeps_ret.
  - apply keeps_bind; [apply Hbody | intros _; exact IH].
Qed.

Lemma keeps_send (net : network) (rq : request) : keeps_mappings (send net rq).
Proof. intros w. unfold send. now destruct (net _ rq). Qed.

Lemma keeps_print (p : printed) : keeps_mappings (print p).
Proof. now intros w. Qed.

Lemma keeps_store_webhook (channel_id : Z) (hook : json) :
  keeps_mappings (store_webhook channel_id hook).
Proof. now intros w. Qed.

Lemma keeps_load_webhook (channel_id : Z) : keeps_mappings (load_webhook channel_id).
Proof. intros w. unfold load_webhook. now destruct (Dict.get _ _). Qed.

Lemma keeps_raise_for_status (r : Z * option json) :
  keeps_mappings (raise_for_status r).
Proof. intros w. unfold raise_for_status. now destruct (_ && _). Qed.

Lemma keeps_response_json (r : Z * option json) : keeps_mappings (response_json r).
Proof. intros w. unfold response_json. now destruct (snd r). Qed.

Create HintDb keeps.

#[local] Hint Resolve keeps_ret keeps_raise keeps_lift keeps_get_world keeps_send
  keeps_print keeps_store_webhook keeps_load_webhook keeps_raise_for_status
  keeps_response_json : keeps.

Lemma keeps_provision_webhook (net : network) (cfg : config) (channel_id : Z) :
  keeps_mappings (provision_webhook net cfg channel_id).
Proof.
  unfold provision_webhook.
  repeat (apply keeps_bind; [solve [auto with keeps] | intros ?]).
  apply keeps_bind.
  - apply keeps_for_each. intros hook. unfold keep_discord_irc_hook.
    apply keeps_bind; [auto with keeps | intros name].
    destruct (Py.eq_str name "discord-irc"); auto with keeps.
  - intros _. apply keeps_bind; [auto with keeps | intros current].
    destruct (negb (Py.truthy current)); [|auto with keeps].
    repeat (apply keeps_bind; [solve [auto with keeps] | intros ?]).
    auto with keeps.
Qed.

(** [_setup_webhooks] changes neither channel map, whether it returns
    or raises. *)
Lemma keeps__setup_webhooks (net : network) (cfg : config) :
  keeps_mappings (_setup_webhooks net cfg).
Proof.
  unfold _setup_webhooks.
  apply keeps_bind; [now intros w | intros _].
  apply keeps_bind; [auto with keeps | intros w0].
  unfold _setup_webhooks_loop. apply keeps_for_each. intros item.
  apply keeps_try; [apply keeps_provision_webhook | intros e].
  unfold report_webhook_failure.
  repeat (apply keeps_bind; [solve [auto with keeps] | intros ?]).
  auto with keeps.
Qed.

End Frame.

Section RoundTrip.

Lemma parse_items_distinct (items : list string) :
  forall (spairs : list (string * string)) (value : Dict.t string string),
    map split_pair items = map Some spairs ->
    NoDup (Dict.keys value ++ map fst spairs) ->
    DictAttribute.parse_items items value = Returned (value ++ spairs)%list.
Proof.
  induction items as [|item rest IH]; intros [|[k v] spairs] value Hitems Hnd;
    try discriminate Hitems.
  - cbn. now rewrite app_nil_r.
  - cbn [map] in Hitems. injection Hitems as Hitem Hrest.
    rewrite parse_items_cons, Hitem.
    rewrite set_fresh.
    + rewrite (IH spairs); [now rewrite <- app_assoc | exact Hrest|].
      unfold Dict.keys in *. rewrite map_app, <- app_assoc. exact Hnd.
    + apply NoDup_remove_2 in Hnd. intros Hin. apply Hnd.
      apply in_or_app. now left.
Qed.

Lemma int_keys_distinct (sitems : list (string * string)) :
  forall (pairs : list (Z * string)) (acc : Dict.t Z string),
    map int_key sitems = map Some pairs ->
    NoDup (Dict.keys acc ++ map fst pairs) ->
    int_keys sitems acc = Returned (acc ++ pairs)%list.
Proof.
  induction sitems as [|[k v] rest IH]; intros [|[n l] pairs] acc Hitems Hnd;
    try discriminate Hitems.
  - cbn. now rewrite app_nil_r.
  - cbn [map] in Hitems. injection Hitems as Hitem Hrest.
    unfold int_key in Hitem. cbn [fst snd] in Hitem. cbn [int_keys].
    destruct (PyStr.to_int k) as [n'|]; [|discriminate Hitem].
    injection Hitem as -> ->.
    rewrite set_fresh.
    + rewrite (IH pairs); [now rewrite <- app_assoc | exact Hrest|].
      unfold Dict.keys in *. rewrite map_app, <- app_assoc. exact Hnd.
    + apply NoDup_remove_2 in Hnd. intros Hin. apply Hnd.
      apply in_or_app. now left.
Qed.

Lemma configured_pairs_split (items : list string) :
  forall pairs : list (Z * string),
    map configured_pair items = map Some pairs ->
    exists spairs,
      map split_pair items = map Some spairs /\ map int_key spairs = map Some pairs.
Proof.
  induction items as [|item rest IH]; intros [|p pairs] Hitems;
    try discriminate Hitems.
  - now exists [].
  - cbn [map] in Hitems. injection Hitems as Hitem Hrest.
    destruct (IH pairs Hrest) as (spairs & Hs & Hk).
    unfold configured_pair in Hitem.
    destruct (split_pair item) as [kv|] eqn:Hsplit; [|discriminate Hitem].
    exists (kv :: spairs). cbn [map]. now rewrite Hsplit, Hs, Hitem, Hk.
Qed.

Lemma int_key_In (spairs : list (string * string)) :
  forall pairs : list (Z * string),
    map int_key spairs = map Some pairs ->
    forall (k : string) (n : Z),
      In k (map fst spairs) -> PyStr.to_int k = Some n -> In n (map fst pairs).
Proof.
  induction spairs as [|[k0 v0] spairs IH]; intros [|[n0 l0] pairs] Hk k n Hin Hint;
    try discriminate Hk; [contradiction|].
  cbn [map] in Hk. injection Hk as Hhead Hrest.
  unfold int_key in Hhead. cbn [fst snd] in Hhead.
  destruct Hin as [<- | Hin].
  - cbn [fst] in Hint. rewrite Hint in Hhead. injection Hhead as -> _. now left.
  - right. exact (IH pairs Hrest k n Hin Hint).
Qed.

Lemma int_key_NoDup (spairs : list (string * string)) :
  forall pairs : list (Z * string),
    map int_key spairs = map Some pairs ->
    NoDup (map fst pairs) -> NoDup (map fst spairs).
Proof.
  induction spairs as [|[k0 v0] spairs IH]; intros [|[n0 l0] pairs] Hk Hnd;
    try discriminate Hk; [constructor|].
  cbn [map] in Hk. injection Hk as Hhead Hrest.
  cbn [map fst] in *. inversion Hnd as [|? ? Hnot Hnd']; subst.
  constructor; [|exact (IH pairs Hrest Hnd')].
  intros Hin. apply Hnot.
  unfold int_key in Hhead. cbn [fst snd] in Hhead.
  destruct (PyStr.to_int k0) as [n|] eqn:Hint; [|discriminate Hhead].
  injection Hhead as -> _.
  exact (int_key_In spairs pairs Hrest k0 n0 Hin Hint).
Qed.

Lemma invert_distinct (pairs : Dict.t Z string) :
  NoDup (map snd pairs) ->
  invert pairs = map (fun kv => (snd kv, fst kv)) pairs.
Proof.
  intros Hnd. unfold invert, Dict.of_pairs, Dict.items.
  rewrite fold_set_fresh; [reflexivity|].
  cbn [Dict.keys Dict.empty map List.app]. rewrite map_map. exact Hnd.
Qed.

(** C5, as the code has it. When the configured list has no remote id
    and no local id twice, [setup] leaves [client.channel_mappings] equal
    to the list of configured pairs and [bot.memory['channel_mappings']]
    equal to the list of swapped pairs; so for every configured pair
    [(r, l)] the first map sends [r] to [l] and the second sends [l] back
    to [r]: each lookup followed by the other returns the id it started
    from. *)
Theorem setup_maps_are_inverse_without_repeats
    (net : network) (cfg : config) (value : string)
    (pairs : list (Z * string)) (w : world) :
  channel_mappings_option cfg = Some value ->
  map configured_pair (PyStr.split "," value) = map Some pairs ->
  NoDup (map fst pairs) ->
  NoDup (map snd pairs) ->
  let w' := snd (setup net cfg w) in
  client_channel_mappings w' = pairs
  /\ memory_channel_mappings w' = map (fun kv => (snd kv, fst kv)) pairs
  /\ forall (r : Z) (l : string),
       In (r, l) pairs ->
       Dict.get r (client_channel_mappings w') = Some l
       /\ Dict.get l (memory_channel_mappings w') = Some r.
Proof.
  intros Hoption Hpairs Hremote Hlocal w'.
  destruct (configured_pairs_split _ _ Hpairs) as (spairs & Hsplit & Hkeys).
  assert (Hof : client_channel_mappings_of cfg = Returned pairs).
  { unfold client_channel_mappings_of, config_channel_mappings.
    rewrite Hoption. unfold DictAttribute.parse.
    rewrite (parse_items_distinct _ spairs).
    - exact (int_keys_distinct spairs pairs Dict.empty Hkeys Hremote).
    - exact Hsplit.
    - exact (int_key_NoDup spairs pairs Hkeys Hremote). }
  assert (Hw' : client_channel_mappings w' = pairs
                /\ memory_channel_mappings w' = invert pairs).
  { assert (Hsetup :
      setup net cfg w
      = _setup_webhooks net cfg
          (with_memory_channel_mappings (invert pairs)
             (with_stdout (stdout w ++ [Line (repr_channel_mappings pairs)])
                (with_client_channel_mappings pairs w)))).
    { unfold setup. rewrite bind_run. unfold lift. now rewrite Hof. }
    subst w'. rewrite Hsetup.
    match goal with
    | |- context [_setup_webhooks net cfg ?w0] =>
        destruct (keeps__setup_webhooks net cfg w0) as [-> ->]
    end.
    now split. }
  destruct Hw' as [Hclient Hmemory].
  rewrite (invert_distinct pairs Hlocal) in Hmemory.
  split; [exact Hclient|]. split; [exact Hmemory|].
  intros r l Hin. rewrite Hclient, Hmemory. split.
  - now apply get_In_NoDup.
  - apply get_In_NoDup.
    + unfold Dict.keys. rewrite map_map. exact Hlocal.
    + apply (in_map (fun kv => (snd kv, fst kv))) in Hin. exact Hin.
Qed.

Lemma setup_maps_are_inverse_without_repeats_witness :
  let w' := snd (setup (Sample.net_status 200) Sample.cfg initial_world) in
  Dict.get 5678 (client_channel_mappings w') = Some "#irc-channel2"
  /\ Dict.get "#irc-channel2" (memory_channel_mappings w') = Some 5678.
Proof.
  apply (setup_maps_are_inverse_without_repeats
           (Sample.net_status 200) Sample.cfg
           "1234: #irc-channel1, 5678: #irc-channel2"
           [(1234, "#irc-channel1"); (5678, "#irc-channel2")] initial_world).
  - reflexivity.
  - reflexivity.
  - repeat constructor; cbn; intuition discriminate.
  - repeat constructor; cbn; intuition discriminate.
  - right. now left.
Defined.

(** C5 fails when a local id repeats: the pair [(1234, "#a")] is
    configured, the first map sends 1234 to ["#a"], and the second map
    sends ["#a"] to 5678.  When a remote id repeats, a configured local id
    is missing from the second map. *)
Lemma setup_maps_not_inverse_with_repeats :
  (let w := snd (setup (Sample.net_status 200)
                   {| discord_token := "BOT-TOKEN";
                      channel_mappings_option := Some "1234: #a, 5678: #a" |}
                   initial_world) in
   configured_pair "1234: #a" = Some (1234, "#a")
   /\ Dict.get 1234 (client_channel_mappings w) = Some "#a"
   /\ Dict.get "#a" (memory_channel_mappings w) = Some 5678)
  /\ (let w := snd (setup (Sample.net_status 200)
                      {| discord_token := "BOT-TOKEN";
                         channel_mappings_option := Some "1234: #a, 1234: #b" |}
                      initial_world) in
      configured_pair "1234: #a" = Some (1234, "#a")
      /\ Dict.get "#a" (memory_channel_mappings w) = None).
Proof. repeat split; reflexivity. Qed.

End RoundTrip.

(** * Further properties *)

(** ** Text helpers *)

Section TextFacts.

Import PyStr.

Lemma contains_app (c : ascii) (s t : string) :
  contains c (s ++ t) = contains c s || contains c t.
Proof.
  induction s as [|d s IH]; simpl; [reflexivity|].
  now rewrite IH, orb_assoc.
Qed.

Lemma replace_absent (a b : ascii) (s : string) :
  contains a s = false -> replace a b s = s.
Proof.
  induction s as [|d s IH]; simpl; [reflexivity|].
  intros H. apply orb_false_iff in H as [Hd Hs].
  rewrite Ascii.eqb_sym, Hd. now rewrite IH.
Qed.

Lemma replace_removes (a b : ascii) (s : string) :
  Ascii.eqb a b = false -> contains a (replace a b s) = false.
Proof.
  intros Hab. induction s as [|d s IH]; simpl; [reflexivity|].
  rewrite IH, orb_false_r.
  destruct (Ascii.eqb d a) eqn:E; [exact Hab|].
  now rewrite Ascii.eqb_sym.
Qed.

Lemma contains_lstrip (c : ascii) (s : string) :
  contains c s = false -> contains c (lstrip s) = false.
Proof.
  induction s as [|d s IH]; simpl; [reflexivity|].
  intros H. destruct (is_space d); [|exact H].
  apply orb_false_iff in H as [_ H]. now apply IH.
Qed.

Lemma contains_rstrip (c : ascii) (s : string) :
  contains c s = false -> contains c (rstrip s) = false.
Proof.
  induction s as [|d s IH]; simpl; [reflexivity|].
  intros H. apply orb_false_iff in H as [Hd Hs].
  destruct (is_empty (rstrip s) && is_space d); simpl; [reflexivity|].
  now rewrite Hd, IH.
Qed.

Lemma lstrip_all_space (s : string) :
  all_chars is_space s = true -> lstrip s = EmptyString.
Proof.
  induction s as [|d s IH]; simpl; [reflexivity|].
  destruct (is_space d); simpl; [exact IH | discriminate].
Qed.

Lemma all_space_replace (s : string) :
  all_chars is_space s = true ->
  all_chars is_space (replace (ascii_of_N 10) " " s) = true.
Proof.
  induction s as [|d s IH]; cbn [replace all_chars]; [reflexivity|].
  intros H. apply andb_true_iff in H as [Hd Hs]. rewrite (IH Hs), andb_true_r.
  now destruct (Ascii.eqb d (ascii_of_N 10)).
Qed.

Lemma all_space_no_lt (s : string) :
  all_chars is_space s = true -> contains "<" s = false.
Proof.
  induction s as [|d s IH]; cbn [contains all_chars]; [reflexivity|].
  intros H. apply andb_true_iff in H as [Hd Hs]. rewrite (IH Hs), orb_false_r.
  destruct (Ascii.eqb "<" d) eqn:E; [|reflexivity].
  apply Ascii.eqb_eq in E. subst d. discriminate Hd.
Qed.

(** What [rstrip] returns is empty or ends with a character that is not
    a space, so [rstrip] leaves it as it is. *)
Lemma rstrip_rstrip (s : string) : rstrip (rstrip s) = rstrip s.
Proof.
  induction s as [|d s IH]; simpl; [reflexivity|].
  destruct (is_empty (rstrip s) && is_space d) eqn:E; simpl; [reflexivity|].
  now rewrite IH, E.
Qed.

Lemma lstrip_rstrip_head (s : string) :
  lstrip s = s -> lstrip (rstrip s) = rstrip s.
Proof.
  destruct s as [|d s]; simpl; [reflexivity|].
  destruct (is_space d) eqn:Hd.
  - intros H. exfalso.
    assert (Hlen : forall t, (String.length (lstrip t) <= String.length t)%nat).
    { induction t as [|x t IHt]; simpl; [lia|]. destruct (is_space x); simpl; lia. }
    pose proof (Hlen s) as Hl. rewrite H in Hl. simpl in Hl. lia.
  - intros _. rewrite andb_false_r. simpl. now rewrite Hd.
Qed.

Lemma lstrip_lstrip (s : string) : lstrip (lstrip s) = lstrip s.
Proof.
  induction s as [|d s IH]; simpl; [reflexivity|].
  destruct (is_space d) eqn:Hd; [exact IH|]. simpl. now rewrite Hd.
Qed.

(** [strip] changes nothing in what it returns. *)
Lemma strip_strip (s : string) : strip (strip s) = strip s.
Proof.
  unfold strip.
  rewrite (lstrip_rstrip_head (lstrip s) (lstrip_lstrip s)).
  apply rstrip_rstrip.
Qed.

(** [rstrip] keeps a text that ends with a character that is not a
    space. *)
Lemma rstrip_ends_nonspace (pre : string) (c : ascii) :
  is_space c = false ->
  rstrip (pre ++ String c EmptyString) = pre ++ String c EmptyString.
Proof.
  intros H. induction pre as [|d pre IH]; cbn [String.append rstrip].
  - now rewrite H, andb_false_r.
  - rewrite IH. now destruct pre.
Qed.

(** Without a [<] in the text, the emoji substitution changes nothing. *)
Lemma sub_emoji_without_lt (s : string) :
  contains "<" s = false -> Re.sub_emoji s = s.
Proof.
  induction s as [|d s IH]; [reflexivity|].
  cbn [contains]. intros H. apply orb_false_iff in H as [Hd Hs].
  rewrite sub_emoji_step.
  assert (Hnone : Re.match_emoji (String d s) = None).
  { rewrite Ascii.eqb_sym in Hd.
    destruct s; cbn [Re.match_emoji]; [reflexivity | now rewrite Hd]. }
  now rewrite Hnone, IH.
Qed.

End TextFacts.

(** ** Inbound: what [on_message] does in every case *)

Section InboundCases.

Variable fmt : formatting.

(** Every run of [on_message] ends in one of three ways: nothing
    happens; an exception is raised and nothing else happens; or one call
    is made, addressed to the IRC channel the event's channel is mapped
    to, and with attachments that call is a [say]. *)
Lemma on_message_outcome (m : message) (w : world) :
  on_message fmt m w = (Returned tt, w)
  \/ (exists e, on_message fmt m w = (Raised e, w))
  \/ exists irc_channel call,
       Dict.get (channel_id m) (client_channel_mappings w) = Some irc_channel
       /\ irc_call_channel call = irc_channel
       /\ (attachments m <> [] -> exists text, call = Say text irc_channel)
       /\ on_message fmt m w
          = (Returned tt, with_irc_sent (irc_sent w ++ [call]) w).
Proof.
  unfold on_message, on_message_guard, Dict.mem. run.
  destruct (Dict.get (channel_id m) (memory_webhooks w)) as [hook|];
    [|now left].
  destruct (Py.truthy hook); [|now left].
  destruct (Dict.get (channel_id m) (client_channel_mappings w))
    as [irc_channel|]; [|now left].
  destruct (Py.getitem hook "id") as [hook_id|e]; [|right; left; now exists e].
  destruct (Py.int hook_id) as [n|e]; [|right; left; now exists e].
  destruct (negb (author_id m =? n)); [|now left].
  destruct (Re.match_valid_message (clean_content m)); [|now left].
  cbv zeta.
  destruct (PyStr.is_empty (relayed_text (clean_content m) (attachments m)));
    [now left|].
  cbn [negb]. right. right. exists irc_channel.
  destruct (Re.match_action (relayed_text (clean_content m) (attachments m))
            && match attachments m with [] => true | _ => false end) eqn:Haction.
  - eexists. repeat split; try reflexivity.
    intros Hurls. apply andb_true_iff in Haction as [_ Haction].
    destruct (attachments m); [contradiction | discriminate].
  - eexists. repeat split; try reflexivity.
    intros _. eexists. reflexivity.
Qed.

(** X1. [on_message] does nothing at all for an event whose channel has
    no usable webhook in the registry (no entry, or a falsy one), or is
    not a key of [client.channel_mappings]; the webhook id is not even
    read. *)
Theorem on_message_unbridged_is_noop (m : message) (w : world) :
  Py.truthy (registry_hook w (channel_id m)) = false
  \/ Dict.get (channel_id m) (client_channel_mappings w) = None ->
  on_message fmt m w = (Returned tt, w).
Proof.
  unfold registry_hook, on_message, on_message_guard, Dict.mem. run.
  intros [Hhook | Hmap].
  - destruct (Dict.get (channel_id m) (memory_webhooks w)) as [hook|];
      now rewrite Hhook.
  - rewrite Hmap.
    now destruct (Py.truthy match Dict.get (channel_id m) (memory_webhooks w) with
                            | Some h => h
                            | None => JObj []
                            end).
Qed.

(** X2. Whatever the event and the state, [on_message] sends no HTTP
    request, prints nothing and leaves the registry and both channel
    maps alone; it makes at most one IRC call, and that call is addressed
    to the IRC channel the event's channel is mapped to. *)
Theorem on_message_effects (m : message) (w : world) :
  let w' := snd (on_message fmt m w) in
  http_sent w' = http_sent w
  /\ stdout w' = stdout w
  /\ memory_webhooks w' = memory_webhooks w
  /\ client_channel_mappings w' = client_channel_mappings w
  /\ memory_channel_mappings w' = memory_channel_mappings w
  /\ exists calls,
       irc_sent w' = (irc_sent w ++ calls)%list
       /\ (List.length calls <= 1)%nat
       /\ forall call, In call calls ->
            Dict.get (channel_id m) (client_channel_mappings w)
            = Some (irc_call_channel call).
Proof.
  destruct (on_message_outcome m w)
    as [-> | [(e & ->) | (ch & call & Hmap & Hch & _ & ->)]]; cbn.
  1,2: repeat split; exists []; rewrite app_nil_r;
    (repeat split; [simpl; lia | intros ? []]).
  repeat split. exists [call]. repeat split; [simpl; lia|].
  intros c [<- | []]. now rewrite Hch.
Qed.

(** X3. An event that carries attachments is never relayed as an
    action, whatever its text: any call [on_message] adds is a [say]. *)
Theorem on_message_attachments_never_action (m : message) (w : world)
    (text channel : string) :
  attachments m <> [] ->
  In (Action text channel) (irc_sent (snd (on_message fmt m w))) ->
  In (Action text channel) (irc_sent w).
Proof.
  intros Hurls.
  destruct (on_message_outcome m w)
    as [-> | [(e & ->) | (ch & call & _ & _ & Hsay & ->)]]; cbn; try tauto.
  intros Hin. apply in_app_or in Hin as [Hin | [Hcall | []]]; [exact Hin|].
  destruct (Hsay Hurls) as [t Ht]. rewrite Ht in Hcall. discriminate Hcall.
Qed.

End InboundCases.

Lemma on_message_unbridged_is_noop_witness :
  on_message Sample.irc_formatting (Sample.remote_message "hello" 5 [])
    Sample.unprovisioned
  = (Returned tt, Sample.unprovisioned).
Proof.
  apply on_message_unbridged_is_noop. left. reflexivity.
Defined.

Lemma on_message_attachments_never_action_witness :
  ~ In (Action "bob doing a thing" "#irc-channel1")
      (irc_sent (snd (on_message Sample.irc_formatting
                        (Sample.remote_message "_doing a thing_" 5 ["https://x/y.png"])
                        Sample.bridged))).
Proof.
  intros Hin.
  apply (on_message_attachments_never_action Sample.irc_formatting
           (Sample.remote_message "_doing a thing_" 5 ["https://x/y.png"])
           Sample.bridged) in Hin; [exact Hin | discriminate].
Defined.

Section InboundText.

Variable fmt : formatting.

(** X4. An event without attachments whose text is empty or all white
    space is dropped: nothing is sent. *)
Theorem on_message_blank_is_dropped (m : message) (w : world) (irc_channel : string) :
  relayable w m irc_channel ->
  attachments m = [] ->
  all_chars PyStr.is_space (clean_content m) = true ->
  on_message fmt m w = (Returned tt, w).
Proof.
  intros Hrel Hurls Hblank.
  rewrite (on_message_relayable fmt m w irc_channel Hrel), Hurls.
  assert (Hempty : relayed_text (clean_content m) [] = EmptyString).
  { unfold relayed_text, PyStr.strip.
    rewrite (sub_emoji_without_lt _ (all_space_no_lt _ Hblank)).
    now rewrite (lstrip_all_space _ (all_space_replace _ Hblank)). }
  rewrite Hempty. now destruct (Re.match_valid_message (clean_content m)).
Qed.

(** X5. The text [on_message] relays is one stripped line: it holds no
    newline, and stripping it again changes nothing, whatever the event
    text and the attachment urls are. *)
Theorem relayed_text_is_one_stripped_line (content : string) (urls : list string) :
  PyStr.contains (ascii_of_N 10) (relayed_text content urls) = false
  /\ PyStr.strip (relayed_text content urls) = relayed_text content urls.
Proof.
  unfold relayed_text. split.
  - unfold PyStr.strip. apply contains_rstrip, contains_lstrip, replace_removes.
    reflexivity.
  - apply strip_strip.
Qed.

(** X6. When the channel is bridged but the cached webhook has no [id],
    or an [id] that [int] does not accept, [on_message] raises that
    exception and relays nothing. *)
Theorem on_message_raises_on_unusable_hook_id
    (m : message) (w : world) (hook : json) (irc_channel : string) (e : exn) :
  Dict.get (channel_id m) (memory_webhooks w) = Some hook ->
  Py.truthy hook = true ->
  Dict.get (channel_id m) (client_channel_mappings w) = Some irc_channel ->
  (Py.getitem hook "id" = Raised e
   \/ exists hook_id, Py.getitem hook "id" = Returned hook_id
                      /\ Py.int hook_id = Raised e) ->
  on_message fmt m w = (Raised e, w).
Proof.
  intros Hhook Htruthy Hmap Hid.
  unfold on_message, on_message_guard, Dict.mem. run.
  rewrite Hhook, Htruthy, Hmap.
  destruct Hid as [-> | (hook_id & -> & ->)]; reflexivity.
Qed.

Lemma dot_plus_before_underscore (x : string) :
  x <> EmptyString ->
  PyStr.contains (ascii_of_N 10) x = false ->
  Re.dot_plus_underscore_end (x ++ String "_" EmptyString) = true.
Proof.
  induction x as [|c x IH]; [contradiction|].
  intros _ Hnl. cbn [PyStr.contains] in Hnl.
  apply orb_false_iff in Hnl as [Hc Hx].
  cbn [String.append Re.dot_plus_underscore_end].
  rewrite Ascii.eqb_sym, Hc. cbn [negb andb].
  destruct x as [|d x]; [reflexivity|].
  rewrite IH by (discriminate || assumption). apply orb_true_r.
Qed.

Lemma drop_last_app (x : string) (c : ascii) :
  PyStr.drop_last (x ++ String c EmptyString) = x.
Proof.
  induction x as [|d x IH]; [reflexivity|].
  cbn [String.append PyStr.drop_last]. rewrite IH.
  now destruct x.
Qed.

(** X7. The action encoding goes round: the content [irc_message] posts
    for an IRC action with text [x] (not empty, without [<] and without
    newline), received back as the text of a bridged event without
    attachments, is relayed by [on_message] as an action whose body is
    [x] again. *)
Theorem action_encoding_round_trip
    (cfg : config) (t : trigger) (hook_id hook_token : json)
    (m : message) (w : world) (irc_channel : string) :
  is_action_intent t = true ->
  match_string t <> EmptyString ->
  PyStr.contains "<" (match_string t) = false ->
  PyStr.contains (ascii_of_N 10) (match_string t) = false ->
  req_json (delivery_request cfg t hook_id hook_token)
  = Some (JObj [("content", JStr (clean_content m));
                ("username", JStr (nick t ++ " (IRC)"))]) ->
  attachments m = [] ->
  relayable w m irc_channel ->
  on_message fmt m w
  = (Returned tt,
     with_irc_sent
       (irc_sent w ++ [Action (author_name m ++ " " ++ match_string t) irc_channel])
       w).
Proof.
  intros Hintent Hne Hlt Hnl Hjson Hurls Hrel.
  assert (Hcontent : clean_content m
                     = String "_" (match_string t ++ String "_" EmptyString)).
  { unfold delivery_request, is_action_intent in *. cbn [req_json] in Hjson.
    destruct (tags_intent t) as [intent|]; [|discriminate Hintent].
    rewrite Hintent in Hjson. now injection Hjson as <-. }
  assert (Hrelayed : relayed_text (clean_content m) []
                     = String "_" (match_string t ++ String "_" EmptyString)).
  { rewrite Hcontent. unfold relayed_text.
    rewrite sub_emoji_without_lt.
    2:{ cbn [PyStr.contains]. rewrite contains_app, Hlt. reflexivity. }
    rewrite replace_absent.
    2:{ cbn [PyStr.contains]. rewrite contains_app, Hnl. reflexivity. }
    rewrite strip_head by reflexivity.
    now rewrite rstrip_ends_nonspace. }
  rewrite (on_message_relayable fmt m w irc_channel Hrel), Hurls, Hrelayed.
  rewrite Hcontent at 1.
  change (Re.match_valid_message
            (String "_" (match_string t ++ String "_" EmptyString))) with true.
  cbv iota zeta. cbn [PyStr.is_empty Re.match_action PyStr.slice_1_m1].
  rewrite (dot_plus_before_underscore _ Hne Hnl), drop_last_app.
  reflexivity.
Qed.

End InboundText.

Lemma on_message_blank_is_dropped_witness :
  on_message Sample.irc_formatting
    (Sample.remote_message (String (ascii_of_N 10) "  ") 5 []) Sample.bridged
  = (Returned tt, Sample.bridged).
Proof.
  apply (on_message_blank_is_dropped Sample.irc_formatting _ _ "#irc-channel1").
  - exists Sample.hook, (JStr "77"), 77.
    repeat split; try reflexivity. discriminate.
  - reflexivity.
  - reflexivity.
Defined.

Lemma on_message_raises_on_unusable_hook_id_witness :
  on_message Sample.irc_formatting (Sample.remote_message "hello" 5 [])
    (with_memory_webhooks
       [(1234, JObj [("name", JStr "discord-irc"); ("id", JStr "seventy")])]
       Sample.bridged)
  = (Raised ValueError,
     with_memory_webhooks
       [(1234, JObj [("name", JStr "discord-irc"); ("id", JStr "seventy")])]
       Sample.bridged).
Proof.
  apply (on_message_raises_on_unusable_hook_id Sample.irc_formatting _ _
           (JObj [("name", JStr "discord-irc"); ("id", JStr "seventy")])
           "#irc-channel1").
  - reflexivity.
  - reflexivity.
  - reflexivity.
  - right. exists (JStr "seventy"). split; reflexivity.
Defined.

Lemma action_encoding_round_trip_witness :
  on_message Sample.irc_formatting
    (Sample.remote_message "_waves at everyone_" 5 []) Sample.bridged
  = (Returned tt,
     with_irc_sent [Action "bob waves at everyone" "#irc-channel1"] Sample.bridged).
Proof.
  apply (action_encoding_round_trip Sample.irc_formatting Sample.cfg
           {| is_privmsg := false;
              sender := {| identifier_text := "#irc-channel1" |};
              match_string := "waves at everyone";
              tags_intent := Some "ACTION"; nick := "alice" |}
           (JStr "77") (JStr "hook-token")
           (Sample.remote_message "_waves at everyone_" 5 [])
           Sample.bridged "#irc-channel1");
    try reflexivity.
  - discriminate.
  - exists Sample.hook, (JStr "77"), 77.
    repeat split; try reflexivity. discriminate.
Defined.

(** ** Outbound: what [irc_message] does in every case *)

Section OutboundCases.

Variable net : network.
Variable cfg : config.

Lemma getitem_raises (j : json) (key : string) (e : exn) :
  Py.getitem j key = Raised e -> e = TypeError \/ e = KeyError key.
Proof.
  destruct j as [| | | | |fields]; cbn; intros H;
    try (injection H as <-; now left).
  destruct (Dict.get key fields); [discriminate H|].
  injection H as <-. now right.
Qed.

(** Every run of [irc_message] ends in one of three ways: nothing
    happens; reading the cached hook raises and nothing else happens; or
    the delivery request is sent, and the handler returns or raises
    [ConnectionError]. *)
Lemma irc_message_outcome (t : trigger) (w : world) :
  irc_message net cfg t w = (Returned tt, w)
  \/ (exists e, irc_message net cfg t w = (Raised e, w)
                /\ (e = TypeError \/ e = KeyError "id" \/ e = KeyError "token"))
  \/ exists discord_channel hook_id hook_token,
       is_privmsg t = false
       /\ identifier_get (sender t) (memory_channel_mappings w) = Some discord_channel
       /\ Py.getitem (registry_hook w discord_channel) "id" = Returned hook_id
       /\ Py.getitem (registry_hook w discord_channel) "token" = Returned hook_token
       /\ let w1 := with_http_sent
                      (http_sent w ++ [delivery_request cfg t hook_id hook_token]) w in
          irc_message net cfg t w = (Returned tt, w1)
          \/ irc_message net cfg t w = (Raised ConnectionError, w1).
Proof.
  unfold irc_message, try_except_HTTPError, registry_hook. run.
  destruct (is_privmsg t); cbn [negb]; [now left|].
  destruct (identifier_get (sender t) (memory_channel_mappings w)) as [discord_channel|];
    [|now left].
  set (hook := match Dict.get discord_channel (memory_webhooks w) with
               | Some h => h
               | None => JObj []
               end).
  destruct (Py.truthy hook); [|now left].
  destruct (Py.getitem hook "id") as [hook_id|e] eqn:Hid.
  2:{ right. left. exists e. apply getitem_raises in Hid.
      destruct Hid as [-> | ->]; split; auto. }
  destruct (Py.getitem hook "token") as [hook_token|e] eqn:Htoken.
  2:{ right. left. exists e. apply getitem_raises in Htoken.
      destruct Htoken as [-> | ->]; split; auto. }
  right. right. exists discord_channel, hook_id, hook_token.
  repeat split; try assumption.
  cbv zeta.
  destruct (net (List.length (http_sent w)) (delivery_request cfg t hook_id hook_token))
    as [|status body]; cbn [fst]; [now right|].
  left. now destruct ((400 <=? status) && (status <? 600)).
Qed.

(** X8. [irc_message] does nothing at all for a private message, for a
    sender that the [Identifier] lookup does not find in
    [bot.memory['channel_mappings']] (no key is its lower-cased text),
    and for a sender that resolves to a channel whose registry entry is
    missing or falsy (the empty dict, but also an empty list or [None]
    cached from a creation answer). *)
Theorem irc_message_unbridged_is_noop (t : trigger) (w : world) :
  is_privmsg t = true
  \/ identifier_get (sender t) (memory_channel_mappings w) = None
  \/ (exists discord_channel,
         identifier_get (sender t) (memory_channel_mappings w) = Some discord_channel
         /\ Py.truthy (registry_hook w discord_channel) = false) ->
  irc_message net cfg t w = (Returned tt, w).
Proof.
  unfold irc_message, registry_hook. run.
  intros [Hpriv | [Hmap | (discord_channel & Hmap & Hhook)]].
  - now rewrite Hpriv.
  - rewrite Hmap. now destruct (is_privmsg t).
  - rewrite Hmap, Hhook. now destruct (is_privmsg t).
Qed.

(** X9. Whatever the trigger and the state, [irc_message] makes no IRC
    call, prints nothing, and leaves the registry and both channel maps
    alone. *)
Theorem irc_message_effects (t : trigger) (w : world) :
  let w' := snd (irc_message net cfg t w) in
  irc_sent w' = irc_sent w
  /\ stdout w' = stdout w
  /\ memory_webhooks w' = memory_webhooks w
  /\ client_channel_mappings w' = client_channel_mappings w
  /\ memory_channel_mappings w' = memory_channel_mappings w.
Proof.
  destruct (irc_message_outcome t w)
    as [-> | [(e & -> & _) | (c & id & tok & _ & _ & _ & _ & [-> | ->])]];
    cbn; repeat split.
Qed.

(** X10. [irc_message] never lets an [HTTPError] out. It returns, or it
    raises [ConnectionError] after sending the request, or it raises
    [TypeError] or [KeyError] for [id] or [token] before sending
    anything. *)
Theorem irc_message_never_raises_HTTPError (t : trigger) (w : world) :
  (forall status, fst (irc_message net cfg t w) <> Raised (HTTPError status))
  /\ (fst (irc_message net cfg t w) = Returned tt
      \/ (fst (irc_message net cfg t w) = Raised ConnectionError
          /\ List.length (http_sent (snd (irc_message net cfg t w)))
             = S (List.length (http_sent w)))
      \/ ((fst (irc_message net cfg t w) = Raised TypeError
           \/ fst (irc_message net cfg t w) = Raised (KeyError "id")
           \/ fst (irc_message net cfg t w) = Raised (KeyError "token"))
          /\ snd (irc_message net cfg t w) = w)).
Proof.
  destruct (irc_message_outcome t w)
    as [-> | [(e & -> & He) | (c & id & tok & _ & _ & _ & _ & [-> | ->])]];
    cbn [fst snd].
  - split; [discriminate | now left].
  - split.
    + intros status. destruct He as [-> | [-> | ->]]; discriminate.
    + right. right. split; [|reflexivity].
      destruct He as [-> | [-> | ->]]; auto.
  - split; [discriminate | now left].
  - split; [discriminate|]. right. left. split; [reflexivity|].
    cbn. rewrite length_app. cbn. lia.
Qed.

(** X11. For a channel message whose sender resolves, by the
    [Identifier] lookup, to a Discord channel, a cached hook that lacks
    [id] or [token] makes [irc_message] raise the exception of
    [hook['id']] or [hook['token']]; no request is sent. *)
Theorem irc_message_raises_on_incomplete_hook
    (t : trigger) (w : world) (discord_channel : Z) (hook : json) (e : exn) :
  is_privmsg t = false ->
  identifier_get (sender t) (memory_channel_mappings w) = Some discord_channel ->
  Dict.get discord_channel (memory_webhooks w) = Some hook ->
  Py.truthy hook = true ->
  (Py.getitem hook "id" = Raised e
   \/ (exists hook_id, Py.getitem hook "id" = Returned hook_id)
      /\ Py.getitem hook "token" = Raised e) ->
  irc_message net cfg t w = (Raised e, w).
Proof.
  intros Hpriv Hmap Hhook Htruthy Hkeys.
  unfold irc_message, try_except_HTTPError. run.
  rewrite Hpriv, Hmap, Hhook, Htruthy. cbn [negb].
  destruct Hkeys as [Hid | [(hook_id & Hid) Htoken]].
  - rewrite Hid. apply getitem_raises in Hid.
    now destruct Hid as [-> | ->].
  - rewrite Hid, Htoken. apply getitem_raises in Htoken.
    now destruct Htoken as [-> | ->].
Qed.

End OutboundCases.

(** X12. When the trigger's sender resolves, by the [Identifier]
    lookup, to a Discord channel whose hook has [id] and [token],
    [irc_message] sends exactly one request, whether or not an
    answer comes; its JSON body holds the line as [content], wrapped in
    underscores exactly when the intent tag is [ACTION], and the nick
    followed by [" (IRC)"] as [username]. *)
Theorem irc_message_delivery_payload
    (net : network) (cfg : config) (t : trigger) (w : world)
    (discord_channel : Z) (hook hook_id hook_token : json) :
  is_privmsg t = false ->
  identifier_get (sender t) (memory_channel_mappings w) = Some discord_channel ->
  Dict.get discord_channel (memory_webhooks w) = Some hook ->
  Py.getitem hook "id" = Returned hook_id ->
  Py.getitem hook "token" = Returned hook_token ->
  exists rq,
    http_sent (snd (irc_message net cfg t w)) = (http_sent w ++ [rq])%list
    /\ req_json rq
       = Some (JObj [("content",
                      JStr (if is_action_intent t
                            then "_" ++ match_string t ++ "_"
                            else match_string t));
                     ("username", JStr (nick t ++ " (IRC)"))]).
Proof.
  intros Hpriv Hmap Hhook Hid Htoken.
  exists (delivery_request cfg t hook_id hook_token). split.
  - unfold irc_message, try_except_HTTPError. run.
    rewrite Hpriv, Hmap, Hhook, (getitem_truthy _ _ _ Hid), Hid, Htoken.
    cbn [negb]. cbv beta iota.
    destruct (net (List.length (http_sent w)) (delivery_request cfg t hook_id hook_token))
      as [|status body]; cbn [fst]; [reflexivity|].
    now destruct ((400 <=? status) && (status <? 600)).
  - unfold delivery_request, is_action_intent. cbn [req_json].
    destruct (tags_intent t) as [intent|]; [|reflexivity].
    now destruct (String.eqb intent "ACTION").
Qed.

Lemma irc_message_unbridged_is_noop_witness :
  irc_message Sample.net_down Sample.cfg Sample.alice_says_hi
    (with_memory_webhooks [(1234, JArr [])] Sample.bridged)
  = (Returned tt, with_memory_webhooks [(1234, JArr [])] Sample.bridged)
  /\ irc_message Sample.net_down Sample.cfg Sample.alice_on_Chan Sample.bridged_Chan
     = (Returned tt, Sample.bridged_Chan).
Proof.
  split.
  - apply irc_message_unbridged_is_noop. right. right.
    exists 1234. split; reflexivity.
  - apply irc_message_unbridged_is_noop. right. left. reflexivity.
Defined.

Lemma irc_message_raises_on_incomplete_hook_witness :
  irc_message Sample.net_down Sample.cfg Sample.alice_says_hi_upper
    (with_memory_webhooks [(1234, JObj [("id", JStr "77")])] Sample.bridged)
  = (Raised (KeyError "token"),
     with_memory_webhooks [(1234, JObj [("id", JStr "77")])] Sample.bridged).
Proof.
  apply (irc_message_raises_on_incomplete_hook _ _ _ _ 1234
           (JObj [("id", JStr "77")])); try reflexivity.
  right. split; [now exists (JStr "77") | reflexivity].
Defined.

Lemma irc_message_delivery_payload_witness :
  exists rq,
    http_sent (snd (irc_message Sample.net_down Sample.cfg Sample.alice_says_hi_upper
                      Sample.bridged))
    = (http_sent Sample.bridged ++ [rq])%list
    /\ req_json rq
       = Some (JObj [("content", JStr "hi"); ("username", JStr "alice (IRC)")]).
Proof.
  exact (irc_message_delivery_payload Sample.net_down Sample.cfg
           Sample.alice_says_hi_upper Sample.bridged 1234 Sample.hook
           (JStr "77") (JStr "hook-token")
           eq_refl eq_refl eq_refl eq_refl eq_refl).
Defined.

(** ** Start-up: what provisioning does with the answers *)

Section MoreDictFacts.

Context {K V : Type} `{Eqb K}.

Lemma get_set_other (k k' : K) (v : V) (d : Dict.t K V) :
  k <> k' -> Dict.get k (Dict.set k' v d) = Dict.get k d.
Proof.
  intros Hne. induction d as [|[k0 v0] d IH]; cbn [Dict.set Dict.get].
  - now rewrite (eqb_neq _ _ Hne).
  - destruct (eqb k' k0) eqn:E; cbn [Dict.get].
    + apply eqb_spec in E. subst k0. now rewrite (eqb_neq _ _ Hne).
    + now rewrite IH.
Qed.

Lemma set_set (k : K) (v v' : V) (d : Dict.t K V) :
  Dict.set k v' (Dict.set k v d) = Dict.set k v' d.
Proof.
  induction d as [|[k0 v0] d IH]; cbn [Dict.set].
  - now rewrite eqb_refl.
  - destruct (eqb k k0) eqn:E; cbn [Dict.set]; rewrite E; [reflexivity|].
    now rewrite IH.
Qed.

End MoreDictFacts.

Section ProvisioningAnswers.

Variable net : network.
Variable cfg : config.

Ltac fields :=
  unfold with_memory_webhooks, with_http_sent;
  cbn [client_channel_mappings memory_channel_mappings memory_webhooks
       http_sent irc_sent stdout].

Lemma last_discord_irc_found (hooks : list json) (found : option json) :
  last_discord_irc hooks found
  = match last_discord_irc hooks None with
    | Some h => Some h
    | None => found
    end.
Proof.
  revert found. induction hooks as [|hook hooks IH]; intros found; cbn.
  - reflexivity.
  - rewrite IH.
    rewrite (IH (match named_discord_irc hook with
                 | Some true => Some hook
                 | _ => None
                 end)).
    destruct (last_discord_irc hooks None); [reflexivity|].
    now destruct (named_discord_irc hook) as [[|]|].
Qed.

(** The scan of a list whose hooks all have a [name]: the channel's
    entry becomes the last hook named [discord-irc], if there is one. *)
Lemma scan_named_hooks (channel_id : Z) (hooks : list json) :
  Forall (fun hook => named_discord_irc hook <> None) hooks ->
  forall w : world,
    for_each hooks (keep_discord_irc_hook channel_id) w
    = (Returned tt,
       match last_discord_irc hooks None with
       | Some h =>
           with_memory_webhooks (Dict.set channel_id h (memory_webhooks w)) w
       | None => w
       end).
Proof.
  induction 1 as [|hook hooks Hname _ IH]; intros w; [reflexivity|].
  cbn [for_each last_discord_irc]. rewrite bind_run.
  unfold keep_discord_irc_hook at 1. rewrite bind_run. unfold lift at 1.
  unfold named_discord_irc in *.
  destruct (Py.getitem hook "name") as [name|e]; [|contradiction].
  rewrite last_discord_irc_found.
  destruct (Py.eq_str name "discord-irc").
  - cbn [store_webhook set_memory_webhooks]. rewrite IH.
    destruct (last_discord_irc hooks None) as [h|]; [|reflexivity].
    fields. now rewrite (set_set channel_id).
  - cbn [ret]. rewrite IH. now destruct (last_discord_irc hooks None).
Qed.

Lemma last_discord_irc_truthy (hooks : list json) (h : json) :
  last_discord_irc hooks None = Some h -> Py.truthy h = true.
Proof.
  assert (Hgen : forall found,
             (forall f, found = Some f -> Py.truthy f = true) ->
             last_discord_irc hooks found = Some h -> Py.truthy h = true).
  { induction hooks as [|hook hooks IH]; intros found Hfound; cbn.
    - apply Hfound.
    - apply IH. unfold named_discord_irc.
      destruct (Py.getitem hook "name") as [name|e] eqn:Hname; [|exact Hfound].
      destruct (Py.eq_str name "discord-irc"); [|exact Hfound].
      intros f Hf. injection Hf as <-. exact (getitem_truthy _ _ _ Hname). }
  apply Hgen. discriminate.
Qed.

Lemma not_error_status (status : Z) :
  ~ error_status status -> (400 <=? status) && (status <? 600) = false.
Proof.
  unfold error_status. intros H.
  destruct (400 <=? status) eqn:Hlo; [|reflexivity].
  destruct (status <? 600) eqn:Hhi; [|reflexivity].
  apply Z.leb_le in Hlo. apply Z.ltb_lt in Hhi. lia.
Qed.

(** X13. When the GET is answered without an error status by a list of
    hooks that all have a [name], and one of them is named
    [discord-irc], the last such hook is cached for the channel and no
    hook is created: the GET is the only request. *)
Theorem provision_webhook_reuses_existing_hook
    (channel_id : Z) (w : world) (status : Z) (body : json)
    (hooks : list json) (h : json) :
  net (List.length (http_sent w)) (list_webhooks_request cfg channel_id)
    = Response status (Some body) ->
  ~ error_status status ->
  Py.iter body = Returned hooks ->
  Forall (fun hook => named_discord_irc hook <> None) hooks ->
  last_discord_irc hooks None = Some h ->
  provision_webhook net cfg channel_id w
  = (Returned tt,
     with_memory_webhooks (Dict.set channel_id h (memory_webhooks w))
       (with_http_sent (http_sent w ++ [list_webhooks_request cfg channel_id]) w)).
Proof.
  intros Hget Hstatus Hiter Hnames Hlast.
  unfold provision_webhook. rewrite bind_run. unfold send at 1. rewrite Hget.
  rewrite bind_run. cbn [store_webhook set_memory_webhooks].
  rewrite bind_run. unfold raise_for_status at 1. cbn [fst].
  rewrite (not_error_status _ Hstatus). cbn [ret].
  rewrite bind_run. cbn [response_json snd ret].
  rewrite bind_run. unfold lift at 1. rewrite Hiter.
  rewrite bind_run, (scan_named_hooks _ _ Hnames), Hlast.
  rewrite bind_run. unfold load_webhook at 1. cbn [memory_webhooks with_memory_webhooks].
  rewrite (get_set_same channel_id), (last_discord_irc_truthy _ _ Hlast). cbn [negb ret].
  fields. now rewrite (set_set channel_id).
Qed.

(** X14. When the GET is answered without an error status by a list of
    hooks that all have a [name], none of them [discord-irc], a hook is
    created with a POST of [{'name': 'discord-irc'}]; when that is
    answered without an error status by a JSON body, the body is cached
    for the channel. *)
Theorem provision_webhook_creates_missing_hook
    (channel_id : Z) (w : world) (status : Z) (body : json)
    (hooks : list json) (status' : Z) (created : json) :
  net (List.length (http_sent w)) (list_webhooks_request cfg channel_id)
    = Response status (Some body) ->
  ~ error_status status ->
  Py.iter body = Returned hooks ->
  Forall (fun hook => named_discord_irc hook <> None) hooks ->
  last_discord_irc hooks None = None ->
  net (S (List.length (http_sent w))) (create_webhook_request cfg channel_id)
    = Response status' (Some created) ->
  ~ error_status status' ->
  provision_webhook net cfg channel_id w
  = (Returned tt,
     with_memory_webhooks (Dict.set channel_id created (memory_webhooks w))
       (with_http_sent
          (http_sent w ++ [list_webhooks_request cfg channel_id;
                           create_webhook_request cfg channel_id]) w))
  /\ req_method (create_webhook_request cfg channel_id) = POST
  /\ req_json (create_webhook_request cfg channel_id)
     = Some (JObj [("name", JStr "discord-irc")]).
Proof.
  intros Hget Hstatus Hiter Hnames Hlast Hpost Hstatus'.
  split; [|split; reflexivity].
  unfold provision_webhook. rewrite bind_run. unfold send at 1. rewrite Hget.
  rewrite bind_run. cbn [store_webhook set_memory_webhooks].
  rewrite bind_run. unfold raise_for_status at 1. cbn [fst].
  rewrite (not_error_status _ Hstatus). cbn [ret].
  rewrite bind_run. cbn [response_json snd ret].
  rewrite bind_run. unfold lift at 1. rewrite Hiter.
  rewrite bind_run, (scan_named_hooks _ _ Hnames), Hlast.
  rewrite bind_run. unfold load_webhook at 1. cbn [memory_webhooks with_memory_webhooks].
  rewrite (get_set_same channel_id). cbn [Py.truthy negb].
  rewrite bind_run. unfold send at 1.
  cbn [http_sent with_memory_webhooks with_http_sent].
  rewrite length_app. cbn [List.length].
  replace (List.length (http_sent w) + 1)%nat with (S (List.length (http_sent w))) by lia.
  rewrite Hpost.
  rewrite bind_run. unfold raise_for_status at 1. cbn [fst].
  rewrite (not_error_status _ Hstatus'). cbn [ret].
  rewrite bind_run. cbn [response_json snd ret].
  unfold store_webhook, set_memory_webhooks. fields.
  rewrite (set_set channel_id), <- app_assoc. reflexivity.
Qed.

End ProvisioningAnswers.

Lemma provision_webhook_reuses_existing_hook_witness :
  provision_webhook (fun _ _ => Response 200 (Some (JArr [JObj [("name", JStr "other")];
                                                          Sample.hook])))
    Sample.cfg 1234 Sample.loaded
  = (Returned tt,
     with_memory_webhooks [(1234, Sample.hook)]
       (with_http_sent [list_webhooks_request Sample.cfg 1234] Sample.loaded)).
Proof.
  apply (provision_webhook_reuses_existing_hook _ Sample.cfg 1234 Sample.loaded 200
           (JArr [JObj [("name", JStr "other")]; Sample.hook])
           [JObj [("name", JStr "other")]; Sample.hook] Sample.hook).
  - reflexivity.
  - unfold error_status. lia.
  - reflexivity.
  - repeat constructor; discriminate.
  - reflexivity.
Defined.

Lemma provision_webhook_creates_missing_hook_witness :
  provision_webhook
    (fun n _ => match n with
                | O => Response 200 (Some (JArr [JObj [("name", JStr "other")]]))
                | _ => Response 200 (Some Sample.hook)
                end)
    Sample.cfg 1234 Sample.loaded
  = (Returned tt,
     with_memory_webhooks [(1234, Sample.hook)]
       (with_http_sent [list_webhooks_request Sample.cfg 1234;
                        create_webhook_request Sample.cfg 1234] Sample.loaded)).
Proof.
  apply (provision_webhook_creates_missing_hook _ Sample.cfg 1234 Sample.loaded
           200 (JArr [JObj [("name", JStr "other")]])
           [JObj [("name", JStr "other")]] 200 Sample.hook).
  - reflexivity.
  - unfold error_status. lia.
  - reflexivity.
  - repeat constructor; discriminate.
  - reflexivity.
  - reflexivity.
  - unfold error_status. lia.
Defined.

(** ** Start-up: the footprint of [_setup_webhooks] *)

Section Footprint.

Variable P : request -> Prop.
Variable allowed : list Z.

Lemma footprint_idle {A : Type} (m : M A) (n : nat) :
  (forall w, snd (m w) = w) -> footprint P allowed n m.
Proof.
  intros Hidle w. rewrite Hidle. split; [reflexivity|]. split; [|tauto].
  exists []. rewrite app_nil_r. repeat split; [simpl; lia | constructor].
Qed.

Lemma footprint_quiet {A : Type} (m : M A) (n : nat) :
  (forall w, irc_sent (snd (m w)) = irc_sent w
             /\ http_sent (snd (m w)) = http_sent w
             /\ memory_webhooks (snd (m w)) = memory_webhooks w) ->
  footprint P allowed n m.
Proof.
  intros Hquiet w. destruct (Hquiet w) as (Hirc & Hsent & Hreg).
  split; [exact Hirc|]. split.
  - exists []. rewrite app_nil_r. repeat split; [exact Hsent | simpl; lia | constructor].
  - rewrite Hreg. tauto.
Qed.

Lemma footprint_weaken {A : Type} (m : M A) (a b : nat) :
  (a <= b)%nat -> footprint P allowed a m -> footprint P allowed b m.
Proof.
  intros Hab Hm w. destruct (Hm w) as (Hirc & (rqs & Hsent & Hlen & HP) & Hkeys).
  split; [exact Hirc|]. split; [|exact Hkeys].
  exists rqs. repeat split; [exact Hsent | lia | exact HP].
Qed.

Lemma footprint_bind {A B : Type} (m : M A) (k : A -> M B) (a b : nat) :
  footprint P allowed a m -> (forall x, footprint P allowed b (k x)) ->
  footprint P allowed (a + b) (bind m k).
Proof.
  intros Hm Hk w. rewrite bind_run.
  destruct (Hm w) as (Hirc & (rqs & Hsent & Hlen & HP) & Hkeys).
  destruct (m w) as [[x|e] w1]; cbn [snd] in *.
  - destruct (Hk x w1) as (Hirc' & (rqs' & Hsent' & Hlen' & HP') & Hkeys').
    split; [congruence|]. split.
    + exists (rqs ++ rqs')%list. rewrite Hsent', Hsent, app_assoc.
      repeat split; [rewrite length_app; lia | now apply Forall_app].
    + intros key Hin. apply Hkeys' in Hin as [Hin | Hin]; [now left|].
      now apply Hkeys.
  - split; [exact Hirc|]. split; [|exact Hkeys].
    exists rqs. repeat split; [exact Hsent | lia | exact HP].
Qed.

Lemma footprint_try (body : M unit) (handler : exn -> M unit) (n : nat) :
  footprint P allowed n body -> (forall e, footprint P allowed 0 (handler e)) ->
  footprint P allowed n (try_except_HTTPError body handler).
Proof.
  intros Hb Hh w. unfold try_except_HTTPError.
  destruct (Hb w) as (Hirc & (rqs & Hsent & Hlen & HP) & Hkeys).
  destruct (body w) as [[x|e] w1]; cbn [snd] in *.
  1: now (split; [|split; [exists rqs|]]).
  destruct e; try now (split; [|split; [exists rqs|]]).
  destruct (Hh (HTTPError status) w1)
    as (Hirc' & (rqs' & Hsent' & Hlen' & _) & Hkeys').
  assert (rqs' = []) as -> by (destruct rqs'; [reflexivity | simpl in Hlen'; lia]).
  rewrite app_nil_r in Hsent'.
  split; [congruence|]. split.
  - exists rqs. rewrite Hsent', Hsent. now repeat split.
  - intros key Hin. apply Hkeys' in Hin as [Hin | Hin]; [now left|].
    now apply Hkeys.
Qed.

Lemma footprint_for_each {A : Type} (xs : list A) (body : A -> M unit) :
  (forall x, footprint P allowed 0 (body x)) ->
  footprint P allowed 0 (for_each xs body).
Proof.
  intros Hbody. induction xs as [|x xs IH]; cbn [for_each].
  - now apply footprint_idle.
  - apply (footprint_bind _ _ 0 0); [apply Hbody | intros _; exact IH].
Qed.

Lemma footprint_send (net : network) (rq : request) :
  P rq -> footprint P allowed 1 (send net rq).
Proof.
  intros HP w. unfold send.
  destruct (net (List.length (http_sent w)) rq); cbn.
  all: split; [reflexivity|]; split; [|tauto].
  all: exists [rq]; repeat split; [simpl; lia | now constructor].
Qed.

Lemma footprint_store (channel_id : Z) (hook : json) (n : nat) :
  In channel_id allowed -> footprint P allowed n (store_webhook channel_id hook).
Proof.
  intros Hin w. cbn. split; [reflexivity|]. split.
  - exists []. rewrite app_nil_r. repeat split; [simpl; lia | constructor].
  - intros key Hkey. apply keys_set in Hkey as [-> | Hkey]; [now left | now right].
Qed.

End Footprint.

Section SetupFootprint.

Variable net : network.
Variable cfg : config.

Lemma provisioning_request_list (channel_id : Z) :
  provisioning_request cfg [channel_id] (list_webhooks_request cfg channel_id).
Proof. exists channel_id. repeat split. now left. Qed.

Lemma provisioning_request_create (channel_id : Z) :
  provisioning_request cfg [channel_id] (create_webhook_request cfg channel_id).
Proof. exists channel_id. repeat split. now left. Qed.

Lemma footprint_provision_webhook (channel_id : Z) :
  footprint (provisioning_request cfg [channel_id]) [channel_id] 2
    (provision_webhook net cfg channel_id).
Proof.
  set (P := provisioning_request cfg [channel_id]).
  assert (Hin : In channel_id [channel_id]) by now left.
  unfold provision_webhook.
  apply (footprint_bind P _ _ _ 1 1);
    [apply footprint_send, provisioning_request_list | intros r].
  apply (footprint_bind P _ _ _ 0 1); [now apply footprint_store | intros _].
  apply (footprint_bind P _ _ _ 0 1).
  { apply footprint_idle. intros w. unfold raise_for_status.
    now destruct (_ && _). }
  intros _. apply (footprint_bind P _ _ _ 0 1).
  { apply footprint_idle. intros w. unfold response_json. now destruct (snd r). }
  intros body. apply (footprint_bind P _ _ _ 0 1); [now apply footprint_idle|].
  intros hooks. apply (footprint_bind P _ _ _ 0 1).
  { apply footprint_for_each. intros hook. unfold keep_discord_irc_hook.
    apply (footprint_bind P _ _ _ 0 0); [now apply footprint_idle | intros name].
    destruct (Py.eq_str name "discord-irc");
      [now apply footprint_store | now apply footprint_idle]. }
  intros _. apply (footprint_bind P _ _ _ 0 1).
  { apply footprint_idle. intros w. unfold load_webhook. now destruct (Dict.get _ _). }
  intros current.
  destruct (negb (Py.truthy current));
    [|apply (footprint_weaken P _ _ 0 1); [lia | now apply footprint_idle]].
  apply (footprint_bind P _ _ _ 1 0);
    [apply footprint_send, provisioning_request_create | intros r'].
  apply (footprint_bind P _ _ _ 0 0).
  { apply footprint_idle. intros w. unfold raise_for_status.
    now destruct (_ && _). }
  intros _. apply (footprint_bind P _ _ _ 0 0).
  { apply footprint_idle. intros w. unfold response_json. now destruct (snd r'). }
  intros created. now apply footprint_store.
Qed.

(** Widening what is allowed. *)
Lemma footprint_channels {A : Type} (m : M A) (channels channels' : list Z) (n : nat) :
  incl channels channels' ->
  footprint (provisioning_request cfg channels) channels n m ->
  footprint (provisioning_request cfg channels') channels' n m.
Proof.
  intros Hincl Hm w.
  destruct (Hm w) as (Hirc & (rqs & Hsent & Hlen & HP) & Hkeys).
  split; [exact Hirc|]. split.
  - exists rqs. repeat split; try assumption.
    eapply Forall_impl; [|exact HP].
    intros rq (c & Hc & Hurl & Hheaders). exists c. auto.
  - intros key Hin. apply Hkeys in Hin as [Hin | Hin]; [left; auto | now right].
Qed.

Lemma footprint_setup_webhooks_loop (items : list (string * Z)) :
  footprint (provisioning_request cfg (map snd items)) (map snd items)
    (2 * List.length items) (_setup_webhooks_loop net cfg items).
Proof.
  unfold _setup_webhooks_loop.
  induction items as [|[k channel_id] rest IH]; cbn [for_each].
  - now apply footprint_idle.
  - replace (2 * List.length ((k, channel_id) :: rest))%nat
      with (2 + 2 * List.length rest)%nat by (simpl; lia).
    apply footprint_bind.
    + apply (footprint_channels _ [channel_id]).
      { intros c [<- | []]. now left. }
      apply footprint_try; cbn [snd].
      * apply footprint_provision_webhook.
      * intros e. now apply footprint_quiet.
    + intros _. apply (footprint_channels _ (map snd rest)); [|exact IH].
      intros c Hc. now right.
Qed.

(** X15. After [_setup_webhooks], however it ends, every key of the
    registry is a Discord channel of [bot.memory['channel_mappings']]:
    the registry is started afresh, and an entry is only ever stored for
    the channel being provisioned. *)
Theorem setup_webhooks_registry_keys_are_mapped (w : world) (channel : Z) :
  In channel (Dict.keys (memory_webhooks (snd (_setup_webhooks net cfg w)))) ->
  In channel (Dict.values (memory_channel_mappings w)).
Proof.
  unfold _setup_webhooks. rewrite bind_run. cbn [set_memory_webhooks].
  rewrite bind_run. cbn [get_world].
  intros Hin.
  apply (footprint_setup_webhooks_loop
           (Dict.items (memory_channel_mappings (with_memory_webhooks Dict.empty w))))
    in Hin as [Hin | []].
  exact Hin.
Qed.

(** X16. [_setup_webhooks] makes no IRC call and sends at most two
    requests for each item of [bot.memory['channel_mappings']]; every
    request it sends goes to the webhooks URL of a mapped Discord channel
    and has the bot credential as its only header. *)
Theorem setup_webhooks_requests (w : world) :
  irc_sent (snd (_setup_webhooks net cfg w)) = irc_sent w
  /\ exists rqs,
       http_sent (snd (_setup_webhooks net cfg w)) = (http_sent w ++ rqs)%list
       /\ (List.length rqs <= 2 * List.length (memory_channel_mappings w))%nat
       /\ Forall (provisioning_request cfg (Dict.values (memory_channel_mappings w))) rqs.
Proof.
  unfold _setup_webhooks. rewrite bind_run. cbn [set_memory_webhooks].
  rewrite bind_run. cbn [get_world].
  destruct (footprint_setup_webhooks_loop
              (Dict.items (memory_channel_mappings (with_memory_webhooks Dict.empty w)))
              (with_memory_webhooks Dict.empty w))
    as (Hirc & Hsent & _).
  split; [exact Hirc | exact Hsent].
Qed.

(** X17. [_setup_webhooks] never lets an [HTTPError] out, whatever the
    remote side answers. *)
Theorem setup_webhooks_never_raises_HTTPError (w : world) (status : Z) :
  fst (_setup_webhooks net cfg w) <> Raised (HTTPError status).
Proof.
  unfold _setup_webhooks. rewrite bind_run. cbn [set_memory_webhooks].
  rewrite bind_run. cbn [get_world].
  generalize (with_memory_webhooks Dict.empty w) at 2 as w0.
  generalize (Dict.items (memory_channel_mappings (with_memory_webhooks Dict.empty w)))
    as items.
  unfold _setup_webhooks_loop.
  induction items as [|[k channel_id] rest IH]; intros w0; cbn [for_each snd].
  - discriminate.
  - rewrite bind_run. unfold try_except_HTTPError at 1.
    destruct (provision_webhook net cfg channel_id w0) as [[[]|e] w1].
    + apply IH.
    + destruct e; try discriminate. cbn. apply IH.
Qed.

End SetupFootprint.

Lemma setup_webhooks_registry_keys_are_mapped_witness :
  In 5678 (Dict.values (memory_channel_mappings
                          (with_memory_webhooks [(999, Sample.hook)] Sample.bridged))).
Proof.
  apply (setup_webhooks_registry_keys_are_mapped (Sample.net_status 404) Sample.cfg).
  right. now left.
Defined.

Section AllRefused.

Variable net : network.
Variable cfg : config.

Hypothesis refused :
  forall n rq, exists status body,
    net n rq = Response status body /\ error_status status.

Lemma setup_webhooks_loop_all_refused (items : list (string * Z)) :
  forall w : world,
    exists w',
      _setup_webhooks_loop net cfg items w = (Returned tt, w')
      /\ List.length (http_sent w')
         = (List.length (http_sent w) + List.length items)%nat
      /\ forall c,
           In c (map snd items)
           \/ Dict.get c (memory_webhooks w) = Some (JObj []) ->
           Dict.get c (memory_webhooks w') = Some (JObj []).
Proof.
  induction items as [|[k channel_id] rest IH]; intros w.
  - exists w. repeat split; [simpl; lia|]. now intros c [[] | Hc].
  - destruct (refused (List.length (http_sent w))
                (list_webhooks_request cfg channel_id))
      as (status & body & Hget & Hstatus).
    pose proof (provision_webhook_get_error_status net cfg channel_id w
                  status body Hget Hstatus) as Hrun.
    rewrite (loop_after_http_error net cfg k channel_id rest _ _ _ Hrun).
    match goal with
    | |- context [_setup_webhooks_loop net cfg rest ?w2] =>
        destruct (IH w2) as (w' & Hloop & Hlen & Hreg)
    end.
    exists w'. split; [exact Hloop|]. split.
    + rewrite Hlen. cbn. rewrite length_app. cbn. lia.
    + intros c Hc. apply Hreg. cbn.
      destruct (Z.eq_dec c channel_id) as [-> | Hne].
      * right. apply get_set_same.
      * rewrite (get_set_other c channel_id) by exact Hne.
        cbn [map snd In] in Hc.
        destruct Hc as [[Heq | Hin] | Hc]; [now subst c | now left | now right].
Qed.

(** X18. When every request is answered with a 4xx or 5xx status,
    [_setup_webhooks] still returns normally; it has sent exactly one
    request for each item of [bot.memory['channel_mappings']], and every
    mapped Discord channel has the empty dict as its registry entry. *)
Theorem setup_webhooks_all_refused (w : world) :
  fst (_setup_webhooks net cfg w) = Returned tt
  /\ List.length (http_sent (snd (_setup_webhooks net cfg w)))
     = (List.length (http_sent w) + List.length (memory_channel_mappings w))%nat
  /\ forall c,
       In c (Dict.values (memory_channel_mappings w)) ->
       Dict.get c (memory_webhooks (snd (_setup_webhooks net cfg w))) = Some (JObj []).
Proof.
  unfold _setup_webhooks. rewrite bind_run. cbn [set_memory_webhooks].
  rewrite bind_run. cbn [get_world].
  destruct (setup_webhooks_loop_all_refused
              (Dict.items (memory_channel_mappings (with_memory_webhooks Dict.empty w)))
              (with_memory_webhooks Dict.empty w))
    as (w' & -> & Hlen & Hreg).
  cbn [fst snd]. split; [reflexivity|]. split; [exact Hlen|].
  intros c Hc. apply Hreg. now left.
Qed.

End AllRefused.

Lemma setup_webhooks_all_refused_witness :
  fst (_setup_webhooks (Sample.net_status 403) Sample.cfg Sample.bridged) = Returned tt
  /\ Dict.get 5678
       (memory_webhooks
          (snd (_setup_webhooks (Sample.net_status 403) Sample.cfg Sample.bridged)))
     = Some (JObj []).
Proof.
  assert (Hrefused : forall n rq, exists status body,
             Sample.net_status 403 n rq = Response status body /\ error_status status).
  { intros n rq. exists 403, (Some (JArr [])). split; [reflexivity|].
    unfold error_status. lia. }
  destruct (setup_webhooks_all_refused (Sample.net_status 403) Sample.cfg Hrefused
              Sample.bridged) as (Hreturned & _ & Hentries).
  split; [exact Hreturned|]. apply Hentries. right. now left.
Defined.

(** ** The channel maps when ids repeat *)

Section LastWins.

Context {K V : Type} `{Eqb K}.

Lemma get_app (k : K) (a b : Dict.t K V) :
  Dict.get k (a ++ b)%list
  = match Dict.get k a with
    | Some v => Some v
    | None => Dict.get k b
    end.
Proof.
  induction a as [|[k0 v0] a IH]; cbn [List.app Dict.get]; [reflexivity|].
  now destruct (eqb k k0).
Qed.

Lemma get_In (k : K) (v : V) (d : Dict.t K V) :
  Dict.get k d = Some v -> In (k, v) d.
Proof.
  induction d as [|[k0 v0] d IH]; cbn [Dict.get]; [discriminate|].
  destruct (eqb k k0) eqn:E.
  - intros Hv. injection Hv as ->. apply eqb_spec in E. subst k0. now left.
  - intros Hv. right. now apply IH.
Qed.

Lemma In_set (k k' : K) (v v' : V) (d : Dict.t K V) :
  In (k, v) (Dict.set k' v' d) -> (k, v) = (k', v') \/ In (k, v) d.
Proof.
  induction d as [|[k0 v0] d IH]; cbn [Dict.set].
  - intros [Heq | []]. now left.
  - destruct (eqb k' k0) eqn:E.
    + apply eqb_spec in E. subst k0.
      intros [Heq | Hin]; [now left | right; now right].
    + intros [Heq | Hin]; [right; now left|].
      apply IH in Hin as [Heq | Hin]; [now left | right; now right].
Qed.

(** Assigning the pairs one after the other: a key ends up with the
    value of its last pair, or with what it had before. *)
Lemma get_fold_set (pairs : list (K * V)) :
  forall (d : Dict.t K V) (k : K),
    Dict.get k (fold_left (fun d kv => Dict.set (fst kv) (snd kv) d) pairs d)
    = match Dict.get k (rev pairs) with
      | Some v => Some v
      | None => Dict.get k d
      end.
Proof.
  induction pairs as [|[k0 v0] pairs IH]; intros d k; cbn [fold_left rev fst snd].
  - reflexivity.
  - rewrite IH, get_app. destruct (Dict.get k (rev pairs)); [reflexivity|].
    cbn [Dict.get]. destruct (eqb k k0) eqn:E.
    + apply eqb_spec in E. subst k0. apply get_set_same.
    + apply get_set_other. intros ->. rewrite eqb_refl in E. discriminate.
Qed.

End LastWins.

Section RepeatedIds.

Variable net : network.
Variable cfg : config.

Lemma get_invert (mappings : Dict.t Z string) (irc_channel : string) :
  Dict.get irc_channel (invert mappings)
  = Dict.get irc_channel (rev (map swap mappings)).
Proof.
  unfold invert, Dict.of_pairs, Dict.items.
  rewrite get_fold_set. unfold swap.
  now destruct (Dict.get irc_channel (rev (map (fun kv => (snd kv, fst kv)) mappings))).
Qed.

(** The two maps [setup] leaves behind when the option is accepted. *)
Lemma setup_maps (mappings : Dict.t Z string) (w : world) :
  client_channel_mappings_of cfg = Returned mappings ->
  client_channel_mappings (snd (setup net cfg w)) = mappings
  /\ memory_channel_mappings (snd (setup net cfg w)) = invert mappings
  /\ NoDup (Dict.keys mappings).
Proof.
  intros Hof.
  assert (Hsetup :
    setup net cfg w
    = _setup_webhooks net cfg
        (with_memory_channel_mappings (invert mappings)
           (with_stdout (stdout w ++ [Line (repr_channel_mappings mappings)])
              (with_client_channel_mappings mappings w)))).
  { unfold setup. rewrite bind_run. unfold lift. now rewrite Hof. }
  rewrite Hsetup.
  match goal with
  | |- context [_setup_webhooks net cfg ?w0] =>
      destruct (keeps__setup_webhooks net cfg w0) as [-> ->]
  end.
  repeat split.
  unfold client_channel_mappings_of in Hof.
  destruct (config_channel_mappings cfg) as [section|e]; [|discriminate Hof].
  pose proof (int_keys_outcome (Dict.items section) Dict.empty (NoDup_nil Z)) as Hint.
  rewrite Hof in Hint. apply Hint.
Qed.

(** X19. When the option is accepted, in the map [setup] builds for the
    IRC side an IRC channel that several Discord channels are mapped to
    goes to the one that comes last in [client.channel_mappings]: looking
    it up is looking it up in the swapped items read backwards. *)
Theorem setup_last_remote_id_wins
    (mappings : Dict.t Z string) (w : world) (irc_channel : string) :
  client_channel_mappings_of cfg = Returned mappings ->
  Dict.get irc_channel (memory_channel_mappings (snd (setup net cfg w)))
  = Dict.get irc_channel (rev (map swap mappings)).
Proof.
  intros Hof. destruct (setup_maps mappings w Hof) as (_ & -> & _).
  apply get_invert.
Qed.

(** X20. Whatever ids repeat in an accepted option, the map for the IRC
    side is a partial inverse of [client.channel_mappings]: when it sends
    an IRC channel to a Discord id, the other map sends that id back to
    the IRC channel. *)
Theorem setup_inverse_map_is_partial_inverse
    (mappings : Dict.t Z string) (w : world)
    (irc_channel : string) (discord_channel : Z) :
  client_channel_mappings_of cfg = Returned mappings ->
  Dict.get irc_channel (memory_channel_mappings (snd (setup net cfg w)))
  = Some discord_channel ->
  Dict.get discord_channel (client_channel_mappings (snd (setup net cfg w)))
  = Some irc_channel.
Proof.
  intros Hof. destruct (setup_maps mappings w Hof) as (-> & -> & Hnd).
  rewrite get_invert. intros Hget.
  apply get_In, in_rev, in_map_iff in Hget as ([r l] & Heq & Hin).
  injection Heq as -> ->. now apply get_In_NoDup.
Qed.

End RepeatedIds.

Lemma setup_last_remote_id_wins_witness :
  Dict.get "#a"
    (memory_channel_mappings
       (snd (setup (Sample.net_status 200)
               {| discord_token := "BOT-TOKEN";
                  channel_mappings_option := Some "1234: #a, 5678: #b, 42: #a" |}
               initial_world)))
  = Dict.get "#a" (rev (map swap [(1234, "#a"); (5678, "#b"); (42, "#a")])).
Proof.
  apply (setup_last_remote_id_wins (Sample.net_status 200)). reflexivity.
Defined.

Lemma setup_inverse_map_is_partial_inverse_witness :
  Dict.get 42
    (client_channel_mappings
       (snd (setup (Sample.net_status 200)
               {| discord_token := "BOT-TOKEN";
                  channel_mappings_option := Some "1234: #a, 5678: #b, 42: #a" |}
               initial_world)))
  = Some "#a".
Proof.
  apply (setup_inverse_map_is_partial_inverse (Sample.net_status 200) _
           [(1234, "#a"); (5678, "#b"); (42, "#a")]); reflexivity.
Defined.

(** ** [DictAttribute]: [parse] and [serialize] *)

Section ParseSerialize.

Import PyStr.

Lemma split_without_sep (sep : ascii) (a : string) :
  contains sep a = false -> split sep a = [a].
Proof.
  induction a as [|c a IH]; [reflexivity|].
  cbn [contains split]. intros H. apply orb_false_iff in H as [Hc Ha].
  rewrite Ascii.eqb_sym, Hc. now rewrite (IH Ha).
Qed.

Lemma split_at_sep (sep : ascii) (a b : string) :
  contains sep a = false ->
  split sep (a ++ String sep b) = a :: split sep b.
Proof.
  induction a as [|c a IH]; cbn [contains String.append split].
  - intros _. now rewrite Ascii.eqb_refl.
  - intros H. apply orb_false_iff in H as [Hc Ha].
    rewrite Ascii.eqb_sym, Hc. now rewrite (IH Ha).
Qed.

Lemma split_join (sep : ascii) (parts : list string) :
  parts <> [] ->
  Forall (fun p => contains sep p = false) parts ->
  split sep (join (String sep EmptyString) parts) = parts.
Proof.
  induction parts as [|p parts IH]; [contradiction|].
  intros _ Hparts. inversion Hparts as [|? ? Hp Hrest]; subst.
  destruct parts as [|q parts]; cbn [join].
  - now apply split_without_sep.
  - cbn [String.append]. rewrite (split_at_sep _ _ _ Hp).
    f_equal. apply IH; [discriminate | exact Hrest].
Qed.

Lemma plain_text_facts (s : string) :
  plain_text s = true ->
  contains "," s = false /\ contains ":" s = false /\ strip s = s.
Proof.
  unfold plain_text. intros H.
  apply andb_true_iff in H as [H Hstrip]. apply andb_true_iff in H as [Hcomma Hcolon].
  apply negb_true_iff in Hcomma. apply negb_true_iff in Hcolon.
  apply String.eqb_eq in Hstrip. auto.
Qed.

Lemma split_pair_plain (k v : string) :
  plain_text k = true -> plain_text v = true ->
  split_pair (k ++ ":" ++ v) = Some (k, v)
  /\ contains "," (k ++ ":" ++ v) = false.
Proof.
  intros Hk Hv.
  apply plain_text_facts in Hk as (Hk1 & Hk2 & Hk3).
  apply plain_text_facts in Hv as (Hv1 & Hv2 & Hv3).
  split.
  - unfold split_pair. cbn [String.append].
    rewrite (split_at_sep _ _ _ Hk2), (split_without_sep _ _ Hv2).
    now rewrite Hk3, Hv3.
  - rewrite contains_app, Hk1. cbn [String.append contains].
    now rewrite Hv1.
Qed.

(** X21. [parse] undoes [serialize] on a dict that is not empty and
    whose keys and values hold no comma, no colon and no white space at
    either end: serializing it and parsing the text gives the same dict,
    items in the same order. *)
Theorem parse_serialize_round_trip (d : Dict.t string string) :
  d <> [] ->
  NoDup (Dict.keys d) ->
  (forall k v, In (k, v) d -> plain_text k = true /\ plain_text v = true) ->
  exists text,
    DictAttribute_serialize (PyDict d) = Returned text
    /\ DictAttribute.parse text = Returned d.
Proof.
  intros Hne Hnd Hplain.
  eexists. split; [reflexivity|].
  unfold DictAttribute.parse, Dict.items.
  assert (Hitems : Forall (fun kv => split_pair (fst kv ++ ":" ++ snd kv) = Some kv
                                     /\ contains "," (fst kv ++ ":" ++ snd kv) = false) d).
  { apply Forall_forall. intros [k v] Hin.
    destruct (Hplain k v Hin) as [Hk Hv]. exact (split_pair_plain k v Hk Hv). }
  rewrite split_join.
  - rewrite (parse_items_distinct _ d Dict.empty); [reflexivity| |exact Hnd].
    rewrite map_map. clear Hne Hnd Hplain.
    induction Hitems as [|kv d [Hsplit _] _ IH]; [reflexivity|].
    cbn [map]. now rewrite Hsplit, IH.
  - now destruct d.
  - apply Forall_map. eapply Forall_impl; [|exact Hitems]. now intros kv [_ H].
Qed.

Lemma parse_items_accepts (items : list string) :
  forall (value d : Dict.t string string),
    DictAttribute.parse_items items value = Returned d ->
    forall item, In item items -> split_pair item <> None.
Proof.
  induction items as [|item0 rest IH]; intros value d Hparse item Hin;
    [contradiction|].
  rewrite parse_items_cons in Hparse.
  destruct (split_pair item0) as [[k v]|] eqn:Hsplit; [|discriminate Hparse].
  destruct Hin as [<- | Hin]; [now rewrite Hsplit|].
  exact (IH _ _ Hparse item Hin).
Qed.

(** X22. A text with an item that holds no colon makes [parse] raise
    [ValueError]. This covers an empty item, so a trailing comma, a
    doubled comma and the empty text; the empty text is also what
    [serialize] writes for the empty dict, the attribute's default. *)
Theorem parse_rejects_item_without_colon (value item : string) :
  In item (split "," value) ->
  contains ":" item = false ->
  DictAttribute.parse value = Raised ValueError.
Proof.
  intros Hin Hcolon. unfold DictAttribute.parse.
  pose proof (parse_items_outcome (split "," value) Dict.empty) as Hout.
  destruct (DictAttribute.parse_items (split "," value) Dict.empty) as [d|e] eqn:Hparse.
  - exfalso. apply (parse_items_accepts _ _ _ Hparse item Hin).
    unfold split_pair. now rewrite (split_without_sep _ _ Hcolon).
  - now destruct Hout as [-> _].
Qed.

(** X23. Every key and every value of a dict [parse] returns is
    stripped: stripping it again changes nothing. *)
Theorem parse_returns_stripped_items (value : string) (d : Dict.t string string)
    (k v : string) :
  DictAttribute.parse value = Returned d ->
  In (k, v) d ->
  strip k = k /\ strip v = v.
Proof.
  unfold DictAttribute.parse.
  assert (Hgen : forall items acc,
             (forall k v, In (k, v) acc -> strip k = k /\ strip v = v) ->
             DictAttribute.parse_items items acc = Returned d ->
             In (k, v) d -> strip k = k /\ strip v = v).
  { induction items as [|item rest IH]; intros acc Hacc Hparse Hin.
    - injection Hparse as <-. now apply Hacc.
    - cbn [DictAttribute.parse_items] in Hparse.
      destruct (split ":" item) as [|k0 [|v0 [|x l]]]; try discriminate Hparse.
      refine (IH _ _ Hparse Hin).
      intros k' v' Hin'. apply In_set in Hin' as [Heq | Hin']; [|now apply Hacc].
      injection Heq as -> ->. split; apply strip_strip. }
  apply Hgen. intros ? ? [].
Qed.

End ParseSerialize.

Lemma parse_serialize_round_trip_witness :
  exists text,
    DictAttribute_serialize (PyDict [("1234", "#irc-channel1"); ("5678", "#irc-channel2")])
    = Returned text
    /\ DictAttribute.parse text
       = Returned [("1234", "#irc-channel1"); ("5678", "#irc-channel2")].
Proof.
  apply parse_serialize_round_trip.
  - discriminate.
  - repeat constructor; cbn; intuition discriminate.
  - intros k v [Heq | [Heq | []]]; injection Heq as <- <-; split; reflexivity.
Defined.

Lemma parse_rejects_item_without_colon_witness :
  DictAttribute_serialize (PyDict []) = Returned EmptyString
  /\ DictAttribute.parse EmptyString = Raised ValueError
  /\ DictAttribute.parse "1234: #a," = Raised ValueError.
Proof.
  split; [reflexivity|]. split.
  - apply (parse_rejects_item_without_colon EmptyString EmptyString);
      [now left | reflexivity].
  - apply (parse_rejects_item_without_colon "1234: #a," EmptyString);
      [right; now left | reflexivity].
Defined.

Lemma parse_returns_stripped_items_witness :
  PyStr.strip "#irc-channel2" = "#irc-channel2".
Proof.
  apply (parse_returns_stripped_items " 1234 : #irc-channel1 ,5678:  #irc-channel2"
           [("1234", "#irc-channel1"); ("5678", "#irc-channel2")] "5678");
    [reflexivity | right; now left].
Defined.

(** ** [DictAttribute.configure] *)

Section Configure.

Variable each_prompt : string.

Lemma configure_loop_until_blank (lines : list string) (rest : list string) :
  Forall (fun line => line <> EmptyString) lines ->
  forall (values : list pyvalue) (value : pyvalue) (prompts : list string),
    configure_loop each_prompt values value (lines ++ EmptyString :: rest) prompts
    = (Some (values ++ value :: map PyText lines)%list,
       {| pending := rest;
          shown := (prompts ++ repeat (each_prompt ++ " ")%string (S (List.length lines)))%list |}).
Proof.
  induction 1 as [|line lines Hline _ IH]; intros values value prompts.
  - cbn. reflexivity.
  - cbn [List.app configure_loop].
    destruct line as [|c line]; [contradiction|].
    cbn [pyvalue_truthy PyStr.is_empty negb].
    rewrite IH. cbn [map List.length repeat].
    now rewrite <- !app_assoc.
Qed.

Lemma texts_of_texts (lines : list string) :
  texts_of (map PyText lines) = Some lines.
Proof.
  induction lines as [|line lines IH]; [reflexivity|].
  cbn [map texts_of]. now rewrite IH.
Qed.

(** X24. With a pair as prompt, [configure] reads items line by line up
    to the first empty line and returns what [parse] makes of the lines
    joined with commas (or raises what [parse] raises); it shows the
    item prompt once for each line read, the empty one included, and
    leaves the lines after it unread. *)
Theorem configure_parses_entered_lines
    (text : string) (default : default_arg)
    (lines rest : list string) (prompts : list string) :
  lines <> [] ->
  Forall (fun line => line <> EmptyString) lines ->
  DictAttribute_configure (PromptPair text each_prompt) default
    {| pending := lines ++ EmptyString :: rest; shown := prompts |}
  = (Parses (DictAttribute.parse (PyStr.join "," lines)),
     {| pending := rest;
        shown := (prompts
                  ++ repeat (each_prompt ++ " ")%string (S (List.length lines)))%list |}).
Proof.
  intros Hne Hlines. destruct lines as [|line lines]; [contradiction|].
  inversion Hlines as [|? ? Hline Hrest]; subst.
  unfold DictAttribute_configure. cbn [pending shown List.app].
  destruct line as [|c line]; [contradiction|].
  cbn [pyvalue_truthy PyStr.is_empty negb].
  rewrite (configure_loop_until_blank lines rest Hrest).
  cbn [List.app]. unfold join_values.
  change (PyText (String c line) :: map PyText lines)
    with (map PyText (String c line :: lines)).
  rewrite texts_of_texts. cbn [List.length repeat].
  now rewrite <- app_assoc.
Qed.

(** X25. An empty first line with no default, or with a default that is
    falsy (the empty dict), does not give the empty mapping: nothing is
    collected, the joined text is empty, and [parse] raises
    [ValueError]. *)
Theorem configure_blank_first_line_raises
    (text : string) (default : default_arg)
    (rest : list string) (prompts : list string) :
  pyvalue_truthy (match default with
                  | NO_DEFAULT => PyText EmptyString
                  | Default v => v
                  end) = false ->
  DictAttribute_configure (PromptPair text each_prompt) default
    {| pending := EmptyString :: rest; shown := prompts |}
  = (Parses (Raised ValueError),
     {| pending := rest; shown := (prompts ++ [(each_prompt ++ " ")%string])%list |}).
Proof.
  intros Hfalsy. unfold DictAttribute_configure.
  cbn [pending shown pyvalue_truthy PyStr.is_empty negb].
  now rewrite Hfalsy.
Qed.

(** X26. An empty first line with a dict that is not empty as default
    puts the dict itself among the values; after the following lines
    and the empty line that ends them, joining the values raises
    [TypeError]. *)
Theorem configure_blank_first_line_with_dict_default
    (text : string) (d : Dict.t string string)
    (lines rest : list string) (prompts : list string) :
  d <> [] ->
  Forall (fun line => line <> EmptyString) lines ->
  DictAttribute_configure (PromptPair text each_prompt) (Default (PyDict d))
    {| pending := EmptyString :: lines ++ EmptyString :: rest; shown := prompts |}
  = (Parses (Raised TypeError),
     {| pending := rest;
        shown := (prompts
                  ++ repeat (each_prompt ++ " ")%string (S (S (List.length lines))))%list |}).
Proof.
  intros Hne Hlines. unfold DictAttribute_configure.
  cbn [pending shown pyvalue_truthy PyStr.is_empty negb].
  destruct d as [|item d]; [contradiction|].
  rewrite (configure_loop_until_blank lines rest Hlines).
  cbn [List.app]. unfold join_values. cbn [texts_of repeat].
  now rewrite <- app_assoc.
Qed.

End Configure.

Lemma configure_parses_entered_lines_witness :
  DictAttribute_configure (PromptPair "Channel mappings" "?") NO_DEFAULT
    {| pending := ["1234: #irc-channel1"; "5678: #irc-channel2"; ""; "next answer"];
       shown := [] |}
  = (Parses (Returned [("1234", "#irc-channel1"); ("5678", "#irc-channel2")]),
     {| pending := ["next answer"]; shown := ["? "; "? "; "? "] |}).
Proof.
  apply (configure_parses_entered_lines "?" "Channel mappings" NO_DEFAULT
           ["1234: #irc-channel1"; "5678: #irc-channel2"] ["next answer"] []).
  - discriminate.
  - repeat constructor; discriminate.
Defined.

Lemma configure_blank_first_line_raises_witness :
  DictAttribute_configure (PromptPair "Channel mappings" "?") (Default (PyDict []))
    {| pending := [""]; shown := [] |}
  = (Parses (Raised ValueError), {| pending := []; shown := ["? "] |}).
Proof.
  apply (configure_blank_first_line_raises "?" "Channel mappings"
           (Default (PyDict [])) [] []).
  reflexivity.
Defined.

Lemma configure_blank_first_line_with_dict_default_witness :
  DictAttribute_configure (PromptPair "Channel mappings" "?")
    (Default (PyDict [("1234", "#irc-channel1")]))
    {| pending := [""; "5678: #irc-channel2"; ""]; shown := [] |}
  = (Parses (Raised TypeError), {| pending := []; shown := ["? "; "? "; "? "] |}).
Proof.
  apply (configure_blank_first_line_with_dict_default "?" "Channel mappings"
           [("1234", "#irc-channel1")] ["5678: #irc-channel2"] [] []).
  - discriminate.
  - repeat constructor; discriminate.
Defined.
